(** * TUTU Shop backend (server.js): product catalogs and uploads

    A shallow embedding of the request handlers of [src/server.js], and the
    properties of them that the specification states.

    - The model: JSON values and JavaScript's [parseInt], truthiness and
      strict equality, as far as the handlers use them; the file system the
      handlers read and write, with a trace of the calls they make
      ([fs.readFile], [fs.writeFile], [fs.unlink], [console.error]); the
      five product routes as programs of a small state-and-exception monad,
      one definition per handler, statement by statement; the two upload
      routes, with the part of multer and of Express's default error
      handling that decides their status codes.
    - The vocabulary of the properties, and the concrete requests they are
      tried on.
    - The properties: what each route does to the catalog and answers, the
      assignment of identifiers, the reading of the [id] parameter, and the
      invariant of the catalog.

    Conventions.  A JavaScript object is a finite map from keys to values
    (key order only shows in the serialised text, which is not modelled).
    Identifiers are the only numbers the handlers compute with: they are
    integers, and IEEE doubles are exact on integers below 2^53; other
    numbers are carried as their text.
    [undefined] is the [None] of a property lookup and [NaN] the [None] of
    [parseInt].  Strings are sequences of code units below 256.  The text
    of a file is kept up to [JSON.parse]: either the JSON value it parses
    to, or text that [JSON.parse] rejects.  Requests are served one at a
    time: the interleaving of two requests between their read and their
    write of a catalog file is not modelled. *)

From Stdlib Require Import ZArith String Ascii List Lia Bool.
From stdpp Require Import gmap strings list fin_maps pretty.

#[local] Set Warnings "-register-all".
#[local] Open Scope string_scope.
#[local] Open Scope Z_scope.

(** ** JSON values *)

(** [VNum z] is the number with the integer value [z]; [VFrac literal] is a
    number that is not an integer (a price of 4.5), kept as its JSON text:
    the handlers pass such numbers on and never compute with them. *)
Inductive value : Type :=
  | VNull
  | VBool (b : bool)
  | VNum (z : Z)
  | VFrac (literal : string)
  | VStr (s : string)
  | VArr (l : list value)
  | VObj (o : gmap string value).

(** An object literal [{ k1: v1, k2: v2 }]. *)
Definition obj (l : list (string * value)) : gmap string value := list_to_map l.

(** JavaScript truthiness ([undefined] is [None]). *)
Definition truthy (v : option value) : bool :=
  match v with
  | None => false
  | Some VNull => false
  | Some (VBool b) => b
  | Some (VNum z) => negb (z =? 0)
  | Some (VFrac _) => true
  | Some (VStr s) => negb (String.eqb s "")
  | Some (VArr _) => true
  | Some (VObj _) => true
  end.

(** [v === n] for a number [n] that may be [NaN] ([None]): only a number
    is strictly equal to a number, and [NaN] is equal to nothing. *)
Definition strict_eq_number (v : option value) (n : option Z) : bool :=
  match v, n with
  | Some (VNum a), Some b => a =? b
  | _, _ => false
  end.

(** ** parseInt *)

(** The white space [parseInt] skips, among code units below 256: TAB, LF,
    VT, FF, CR, SP and NBSP. *)
Definition is_white_space (c : ascii) : bool :=
  let n := nat_of_ascii c in
  ((n =? 9) || (n =? 10) || (n =? 11) || (n =? 12) || (n =? 13)
   || (n =? 32) || (n =? 160))%nat.

Fixpoint skip_white_space (s : string) : string :=
  match s with
  | String c s' => if is_white_space c then skip_white_space s' else s
  | EmptyString => EmptyString
  end.

(** The value of a code unit as a digit: 0-9, then a-z or A-Z for 10-35. *)
Definition digit_value (c : ascii) : option Z :=
  let n := Z.of_nat (nat_of_ascii c) in
  if (48 <=? n) && (n <=? 57) then Some (n - 48)
  else if (97 <=? n) && (n <=? 122) then Some (n - 87)
  else if (65 <=? n) && (n <=? 90) then Some (n - 55)
  else None.

(** The integer written by the longest prefix of [s] made of digits of
    radix [R]; [acc] is [None] until a digit has been read. *)
Fixpoint radix_prefix (R : Z) (s : string) (acc : option Z) : option Z :=
  match s with
  | String c s' =>
      match digit_value c with
      | Some d =>
          if d <? R
          then radix_prefix R s' (Some (default 0 acc * R + d))
          else acc
      | None => acc
      end
  | EmptyString => acc
  end.

(** [parseInt(s)] with no radix: skip white space, read a sign, read a
    [0x] or [0X] prefix (radix 16, otherwise 10), then the longest run of
    digits; [NaN] when that run is empty.  Whatever follows the digits is
    ignored.  The result is the exact integer the digits write: it is the
    number JavaScript returns when that integer is below 2^53 in absolute
    value (see [safe_integer] below); a longer run is rounded by JavaScript
    to a number of absolute value at least 2^53. *)
Definition parseInt (s : string) : option Z :=
  let s1 := skip_white_space s in
  let '(sign, s2) :=
    match s1 with
    | String "-" r => (-1, r)
    | String "+" r => (1, r)
    | _ => (1, s1)
    end in
  let '(R, s3) :=
    match s2 with
    | String "0" (String "x" r) => (16, r)
    | String "0" (String "X" r) => (16, r)
    | _ => (10, s2)
    end in
  match radix_prefix R s3 None with
  | Some m => Some (sign * m)
  | None => None
  end.

(** A number as [JSON.stringify] writes it: [NaN] becomes [null]. *)
Definition json_number (n : option Z) : value :=
  match n with
  | Some z => VNum z
  | None => VNull
  end.


(** ** Exceptions, the file system and the console *)

(** What a handler can catch: a file-system error carrying a [code]
    (ENOENT, EACCES, EISDIR, ...), the [SyntaxError] of [JSON.parse], and
    the [TypeError] of a property read on [null] or a call of something
    that is not a function. *)
Inductive exn : Type :=
  | SystemError (code : string)
  | SyntaxError
  | TypeError.

(** [error.code] *)
Definition error_code (e : exn) : option string :=
  match e with
  | SystemError c => Some c
  | _ => None
  end.

(** The text of a file, up to [JSON.parse]. *)
Inductive text : Type :=
  | Json (v : value)
  | Malformed (s : string).

(** What a path holds: a file, or something on which every call fails with
    [code] (a directory, a file without permissions, a missing parent
    directory).  A path that holds nothing is absent from the map. *)
Inductive node : Type :=
  | File (t : text)
  | Faulty (code : string).

Inductive event : Type :=
  | EvReadFile (path : string)
  | EvWriteFile (path : string) (t : text)
  | EvUnlink (path : string)
  | EvConsoleError (msg : string) (e : exn).

Record World : Type := mkWorld {
  disk : gmap string node;
  trace : list event
}.

Definition record_event (ev : event) (w : World) : World :=
  {| disk := disk w; trace := trace w ++ [ev] |}.

Definition set_disk (d : gmap string node) (w : World) : World :=
  {| disk := d; trace := trace w |}.

(** ** The monad of the handlers *)

(** The result of running JavaScript code: it returns, it throws, or it
    leaves the fragment of JavaScript modelled here ([Unmodelled]:
    [Math.max] on a number that is not an integer, or on a string, an array
    or an object, which it would first convert to a number). *)
Inductive outcome (A : Type) : Type :=
  | Ret (a : A)
  | Throw (e : exn)
  | Unmodelled.
Arguments Ret {A} a.
Arguments Throw {A} e.
Arguments Unmodelled {A}.

Definition obind {A B : Type} (m : outcome A) (k : A -> outcome B) : outcome B :=
  match m with
  | Ret a => k a
  | Throw e => Throw e
  | Unmodelled => Unmodelled
  end.

Definition M (A : Type) : Type := World -> outcome A * World.

Definition ret {A : Type} (a : A) : M A := fun w => (Ret a, w).
Definition throw {A : Type} (e : exn) : M A := fun w => (Throw e, w).
Definition lift {A : Type} (m : outcome A) : M A := fun w => (m, w).

Definition bind {A B : Type} (m : M A) (k : A -> M B) : M B :=
  fun w =>
    match m w with
    | (Ret a, w') => k a w'
    | (Throw e, w') => (Throw e, w')
    | (Unmodelled, w') => (Unmodelled, w')
    end.

(** [try { m } catch (error) { h error }] *)
Definition try_catch {A : Type} (m : M A) (h : exn -> M A) : M A :=
  fun w =>
    match m w with
    | (Throw e, w') => h e w'
    | r => r
    end.

Notation "'let+' x ':=' m 'in' k" := (obind m (fun x => k))
  (at level 10, x name, m at level 100, k at level 200).
Notation "'let*' x ':=' m 'in' k" := (bind m (fun x => k))
  (at level 10, x name, m at level 100, k at level 200).
Notation "m ';;' k" := (bind m (fun _ => k))
  (at level 100, k at level 200, right associativity).

(** [fs.readFile(path, 'utf8')] *)
Definition readFile (path : string) : M text :=
  fun w =>
    let w' := record_event (EvReadFile path) w in
    match disk w !! path with
    | Some (File t) => (Ret t, w')
    | Some (Faulty code) => (Throw (SystemError code), w')
    | None => (Throw (SystemError "ENOENT"), w')
    end.

(** [fs.writeFile(path, t, 'utf8')]: creates or replaces the file. *)
Definition writeFile (path : string) (t : text) : M unit :=
  fun w =>
    let w' := record_event (EvWriteFile path t) w in
    match disk w !! path with
    | Some (Faulty code) => (Throw (SystemError code), w')
    | _ => (Ret tt, set_disk (<[path := File t]> (disk w)) w')
    end.

(** [fs.unlink(path)] *)
Definition unlink (path : string) : M unit :=
  fun w =>
    let w' := record_event (EvUnlink path) w in
    match disk w !! path with
    | Some (File _) => (Ret tt, set_disk (delete path (disk w)) w')
    | Some (Faulty code) => (Throw (SystemError code), w')
    | None => (Throw (SystemError "ENOENT"), w')
    end.

(** [console.error(msg, e)] *)
Definition console_error (msg : string) (e : exn) : M unit :=
  fun w => (Ret tt, record_event (EvConsoleError msg e) w).

Definition JSON_parse (t : text) : M value :=
  match t with
  | Json v => ret v
  | Malformed _ => throw SyntaxError
  end.

Definition JSON_stringify (v : value) : text := Json v.

(** ** Reading products *)

(** [p.k] for the keys the handlers read ([id], [image], [audioFile]):
    reading a property of [null] throws; an object gives its own property;
    strings, numbers, booleans and arrays have no property of these names. *)
Definition get_prop (p : value) (k : string) : outcome (option value) :=
  match p with
  | VNull => Throw TypeError
  | VObj o => Ret (o !! k)
  | _ => Ret None
  end.

(** [find], [findIndex], [map], [push] and [splice] exist on arrays only:
    on any other parsed value the handler ends in a [TypeError] before it
    writes anything. *)
Definition array_of (v : value) : outcome (list value) :=
  match v with
  | VArr l => Ret l
  | _ => Throw TypeError
  end.

(** [products.findIndex(p => p.id === n)], counting from [i]. *)
Fixpoint findIndex_from (i : nat) (products : list value) (n : option Z)
  : outcome (option nat) :=
  match products with
  | [] => Ret None
  | p :: rest =>
      let+ v := get_prop p "id" in
      if strict_eq_number v n then Ret (Some i)
      else findIndex_from (S i) rest n
  end.

Definition findIndex (products : list value) (n : option Z) : outcome (option nat) :=
  findIndex_from 0 products n.

(** [products.find(p => p.id === n)] *)
Fixpoint find (products : list value) (n : option Z) : outcome (option value) :=
  match products with
  | [] => Ret None
  | p :: rest =>
      let+ v := get_prop p "id" in
      if strict_eq_number v n then Ret (Some p)
      else find rest n
  end.

(** [v || 0] *)
Definition or_zero (v : option value) : value :=
  match v with
  | Some x => if truthy v then x else VNum 0
  | None => VNum 0
  end.

(** The coercion [Math.max] applies to an argument.  Integers, booleans,
    [null], the empty string and the empty array have an integer value;
    arithmetic on other numbers and the conversion of other strings,
    arrays and objects are not modelled. *)
Definition ToNumber (x : value) : outcome Z :=
  match x with
  | VNum z => Ret z
  | VBool b => Ret (if b then 1 else 0)
  | VNull => Ret 0
  | VStr "" => Ret 0
  | VArr [] => Ret 0
  | _ => Unmodelled
  end.

Fixpoint mapM {A B : Type} (f : A -> outcome B) (l : list A) : outcome (list B) :=
  match l with
  | [] => Ret []
  | a :: l' =>
      let+ b := f a in
      let+ bs := mapM f l' in
      Ret (b :: bs)
  end.

(** [Math.max(n, ...ns)] on integers.  The spread passes one argument per
    element: the call is made when the engine takes that many arguments
    (see [spread_limit] below), and throws a [RangeError] on an array that
    is too long for it. *)
Definition Math_max (n : Z) (ns : list Z) : Z := foldl Z.max n ns.

(** The [newId] of the create handler:
    [products.length > 0 ? Math.max(...products.map(p => p.id || 0)) + 1 : 1].
    The callback runs over the whole array before [Math.max] coerces
    anything.  [Math.max] of no argument is not reached: [map] keeps the
    length.  The sum is taken in the integers: it is the number JavaScript
    computes when the greatest identifier is below 2^53 in absolute value
    (see [safe_integer] below); from 2^53 on JavaScript rounds the sum, and
    adding 1 to 2^53 gives 2^53 again. *)
Definition newId (products : list value) : outcome Z :=
  if (0 <? length products)%nat then
    let+ operands := mapM (fun p => let+ v := get_prop p "id" in Ret (or_zero v)) products in
    let+ nums := mapM ToNumber operands in
    match nums with
    | n :: ns => Ret (Math_max n ns + 1)
    | [] => Unmodelled
    end
  else Ret 1.

(** The own enumerable properties an object spread [{...v}] copies, for
    the records the handlers spread (objects). *)
Definition spread (v : value) : gmap string value :=
  match v with
  | VObj o => o
  | _ => ∅
  end.

(** [s.startsWith(prefix)] as the delete handler calls it on a field that
    passed the truthiness test: only a string has the method. *)
Definition startsWith (v : option value) (prefix : string) : outcome bool :=
  match v with
  | Some (VStr s) => Ret (String.prefix prefix s)
  | _ => Throw TypeError
  end.

(** The object literal of the create handler,
    [{ id: newId, ...req.body, createdAt: now1, updatedAt: now2 }]:
    a later entry replaces an earlier one with the same key. *)
Definition created_record (n : Z) (reqBody : gmap string value)
    (now1 now2 : string) : gmap string value :=
  <["updatedAt" := VStr now2]>
    (<["createdAt" := VStr now1]>
       (reqBody ∪ {["id" := VNum n]})).

(** The object literal of the update handler,
    [{ ...products[index], ...req.body, id: parseInt(id), updatedAt: now }]. *)
Definition updated_record (old : value) (reqBody : gmap string value)
    (n : option Z) (now : string) : gmap string value :=
  <["updatedAt" := VStr now]>
    (<["id" := json_number n]>
       (reqBody ∪ spread old)).

(** ** Responses *)

Record response : Type := mkResponse {
  status : Z;
  body : value
}.

(** [res.status(code).json({ error: msg })] *)
Definition error_response (code : Z) (msg : string) : response :=
  {| status := code; body := VObj (obj [("error", VStr msg)]) |}.

(** ** The product routes *)

Section Server.

(** [__dirname], and Node's [path.join], which the handlers use to build
    every path. *)
Variable dirname : string.
Variable path_join : string -> string -> string.

Definition dataDir : string := path_join dirname "data".

(** [getProductsFilePath]: [path.join(dataDir, `products_${category}.json`)] *)
Definition getProductsFilePath (category : string) : string :=
  path_join dataDir ("products_" +:+ category +:+ ".json").

Definition loadProducts (category : string) : M value :=
  try_catch
    (let* data := readFile (getProductsFilePath category) in
     JSON_parse data)
    (fun error =>
       if decide (error_code error = Some "ENOENT") then ret (VArr [])
       else throw error).

Definition saveProducts (category : string) (products : list value) : M unit :=
  writeFile (getProductsFilePath category) (JSON_stringify (VArr products)).

(** [GET /api/products/:category] *)
Definition listProducts (category : string) : M response :=
  try_catch
    (let* products := loadProducts category in
     ret {| status := 200; body := products |})
    (fun error =>
       console_error "Error loading products:" error ;;
       ret (error_response 500 "Failed to load products")).

(** [GET /api/products/:category/:id] *)
Definition getProduct (category id : string) : M response :=
  try_catch
    (let* loaded := loadProducts category in
     let* products := lift (array_of loaded) in
     let* product := lift (find products (parseInt id)) in
     match product with
     | None => ret (error_response 404 "Product not found")
     | Some p => ret {| status := 200; body := p |}
     end)
    (fun error =>
       console_error "Error loading product:" error ;;
       ret (error_response 500 "Failed to load product")).

(** [POST /api/products/:category].  [now1] and [now2] are the two
    readings of the clock, as ISO strings.  The object literal lists [id]
    before the spread of the body and the two timestamps after it. *)
Definition createProduct (category : string) (reqBody : gmap string value)
    (now1 now2 : string) : M response :=
  try_catch
    (let* loaded := loadProducts category in
     let* products := lift (array_of loaded) in
     let* n := lift (newId products) in
     let product := created_record n reqBody now1 now2 in
     saveProducts category (products ++ [VObj product]) ;;
     ret {| status := 201; body := VObj product |})
    (fun error =>
       console_error "Error creating product:" error ;;
       ret (error_response 500 "Failed to create product")).

(** [PUT /api/products/:category/:id] *)
Definition updateProduct (category id : string) (reqBody : gmap string value)
    (now : string) : M response :=
  try_catch
    (let* loaded := loadProducts category in
     let* products := lift (array_of loaded) in
     let* index := lift (findIndex products (parseInt id)) in
     match index with
     | None => ret (error_response 404 "Product not found")
     | Some i =>
         let updated :=
           updated_record (default VNull (products !! i)) reqBody (parseInt id) now in
         saveProducts category (<[i := VObj updated]> products) ;;
         ret {| status := 200; body := VObj updated |}
     end)
    (fun error =>
       console_error "Error updating product:" error ;;
       ret (error_response 500 "Failed to update product")).

(** The clean-up of one file field in the delete handler:
    [if (product.f && product.f.startsWith('/uploads/'))
       { try { await fs.unlink(path.join(__dirname, product.f)) }
         catch (err) { console.error(msg, err) } }] *)
Definition removeUpload (product : value) (field msg : string) : M unit :=
  let* v := lift (get_prop product field) in
  if truthy v then
    let* uploaded := lift (startsWith v "/uploads/") in
    if uploaded : bool then
      match v with
      | Some (VStr file) =>
          try_catch (unlink (path_join dirname file))
            (fun err => console_error msg err)
      | _ => ret tt
      end
    else ret tt
  else ret tt.

(** [DELETE /api/products/:category/:id] *)
Definition deleteProduct (category id : string) : M response :=
  try_catch
    (let* loaded := loadProducts category in
     let* products := lift (array_of loaded) in
     let* index := lift (findIndex products (parseInt id)) in
     match index with
     | None => ret (error_response 404 "Product not found")
     | Some i =>
         let product := default VNull (products !! i) in
         removeUpload product "image" "Error deleting image file:" ;;
         removeUpload product "audioFile" "Error deleting audio file:" ;;
         saveProducts category (delete i products) ;;
         ret {| status := 200;
                body := VObj (obj [("message", VStr "Product deleted successfully")]) |}
     end)
    (fun error =>
       console_error "Error deleting product:" error ;;
       ret (error_response 500 "Failed to delete product")).

(** ** Requests in sequence *)

(** The requests that change a catalog. *)
Inductive request : Type :=
  | Create (reqBody : gmap string value) (now1 now2 : string)
  | Update (id : string) (reqBody : gmap string value) (now : string)
  | Delete (id : string).

Definition handle (category : string) (r : request) : M response :=
  match r with
  | Create reqBody now1 now2 => createProduct category reqBody now1 now2
  | Update id reqBody now => updateProduct category id reqBody now
  | Delete id => deleteProduct category id
  end.

(** The world after the requests [rs], served one after the other. *)
Fixpoint serve (category : string) (rs : list request) (w : World) : World :=
  match rs with
  | [] => w
  | r :: rest => serve category rest (snd (handle category r w))
  end.

(** Every product route answers 500 in [w], after the one read of the
    catalog file that threw [e]. *)
Definition all_routes_answer_500 (w : World) (category : string) (e : exn) : Prop :=
  let w1 := record_event (EvReadFile (getProductsFilePath category)) w in
  listProducts category w
  = (Ret (error_response 500 "Failed to load products"),
     record_event (EvConsoleError "Error loading products:" e) w1)
  /\ (forall id,
        getProduct category id w
        = (Ret (error_response 500 "Failed to load product"),
           record_event (EvConsoleError "Error loading product:" e) w1))
  /\ (forall reqBody now1 now2,
        createProduct category reqBody now1 now2 w
        = (Ret (error_response 500 "Failed to create product"),
           record_event (EvConsoleError "Error creating product:" e) w1))
  /\ (forall id reqBody now,
        updateProduct category id reqBody now w
        = (Ret (error_response 500 "Failed to update product"),
           record_event (EvConsoleError "Error updating product:" e) w1))
  /\ (forall id,
        deleteProduct category id w
        = (Ret (error_response 500 "Failed to delete product"),
           record_event (EvConsoleError "Error deleting product:" e) w1)).

End Server.


(** ** The upload routes *)

(** A file part of a multipart request, as multer hands it to the
    [fileFilter] and to the storage: the form field it came under, the
    name the client gave it, its declared content type, and its number of
    bytes.  The bytes themselves and their place on the disk are not
    modelled. *)
Record file_part : Type := mkFilePart {
  fieldname : string;
  originalname : string;
  mimetype : string;
  size : Z
}.

(** What a middleware passes to [next(err)]: a plain [Error] with its
    message, or one of multer's own errors with its code. *)
Inductive upload_error : Type :=
  | PlainError (message : string)
  | MulterError (code : string).

(** The two [fileFilter] callbacks: [cb(null, true)] is [None], and
    [cb(new Error(...), false)] is the error. *)
Definition imageFilter (file : file_part) : option upload_error :=
  if String.prefix "image/" (mimetype file) then None
  else Some (PlainError "Only image files are allowed!").

Definition audioFilter (file : file_part) : option upload_error :=
  if String.prefix "audio/" (mimetype file) then None
  else Some (PlainError "Only audio files are allowed!").

(** The options given to [multer(...)]. *)
Record multer_options : Type := mkMulter {
  fileSize : Z;
  fileFilter : file_part -> option upload_error
}.

Definition imageUpload : multer_options :=
  {| fileSize := 10 * 1024 * 1024; fileFilter := imageFilter |}.

Definition audioUpload : multer_options :=
  {| fileSize := 50 * 1024 * 1024; fileFilter := audioFilter |}.

(** What the route handler sends, or what Express sends in its place. *)
Inductive reply : Type :=
  | JsonReply (r : response)
  | ErrorPage (code : Z).

Definition reply_status (r : reply) : Z :=
  match r with
  | JsonReply r => status r
  | ErrorPage code => code
  end.

(** The handler of [POST /api/upload/image]; [req_file] is the
    [filename] of [req.file], [None] when [req.file] is undefined. *)
Definition uploadImage (req_file : option string) : response :=
  match req_file with
  | None => error_response 400 "No image file provided"
  | Some filename =>
      {| status := 200;
         body := VObj (obj [("url", VStr ("/uploads/images/" +:+ filename));
                            ("filename", VStr filename)]) |}
  end.

(** The handler of [POST /api/upload/audio]. *)
Definition uploadAudio (req_file : option string) : response :=
  match req_file with
  | None => error_response 400 "No audio file provided"
  | Some filename =>
      {| status := 200;
         body := VObj (obj [("url", VStr ("/uploads/audio/" +:+ filename));
                            ("filename", VStr filename)]) |}
  end.

Section Uploads.

(** Node's [path.extname], and whether the multipart parser under multer
    counts a file of exactly [fileSize] bytes as over the limit (this
    differs between its versions). *)
Variable extname : string -> string.
Variable limit_is_exclusive : bool.

(** The [filename] callback of both storages:
    [Date.now() + '-' + Math.round(Math.random() * 1E9)
     + path.extname(file.originalname)]; [now] and [rnd] are the clock and
    the rounded random number. *)
Definition storage_filename (now rnd : Z) (file : file_part) : string :=
  pretty now +:+ "-" +:+ pretty rnd +:+ extname (originalname file).

Inductive middleware_result : Type :=
  | Next (req_file : option string)
  | NextError (e : upload_error).

Definition over_limit (opts : multer_options) (file : file_part) : bool :=
  (fileSize opts <? size file)
  || (limit_is_exclusive && (size file =? fileSize opts)).

(** The middleware [multer(opts).single(field)] on a request with at most
    one file part.  Without a file part it calls [next()] and leaves
    [req.file] undefined.  A file under another field is refused with
    LIMIT_UNEXPECTED_FILE.  Then the [fileFilter] runs, and its error goes
    to [next(err)].  A file over [limits.fileSize] is refused with
    LIMIT_FILE_SIZE.  Otherwise the file is stored and [req.file] carries
    its [filename]. *)
Definition single (opts : multer_options) (field : string)
    (part : option file_part) (now rnd : Z) : middleware_result :=
  match part with
  | None => Next None
  | Some file =>
      if negb (String.eqb (fieldname file) field)
      then NextError (MulterError "LIMIT_UNEXPECTED_FILE")
      else
        match fileFilter opts file with
        | Some e => NextError e
        | None =>
            if over_limit opts file then NextError (MulterError "LIMIT_FILE_SIZE")
            else Next (Some (storage_filename now rnd file))
        end
  end.

(** [err.status] and [err.statusCode]: neither a plain [Error] nor a
    multer error has one. *)
Definition error_status (e : upload_error) : option Z := None.

(** The application installs no error-handling middleware, so an error
    passed to [next] reaches Express's default handler: it answers with the
    status of the error when that is a 4xx or 5xx code, and with 500
    otherwise. *)
Definition default_error_handler (e : upload_error) : reply :=
  match error_status e with
  | Some code => if (400 <=? code) && (code <? 600) then ErrorPage code else ErrorPage 500
  | None => ErrorPage 500
  end.

(** [app.post('/api/upload/image', imageUpload.single('image'), handler)] *)
Definition postUploadImage (part : option file_part) (now rnd : Z) : reply :=
  match single imageUpload "image" part now rnd with
  | Next req_file => JsonReply (uploadImage req_file)
  | NextError e => default_error_handler e
  end.

(** [app.post('/api/upload/audio', audioUpload.single('audio'), handler)] *)
Definition postUploadAudio (part : option file_part) (now rnd : Z) : reply :=
  match single audioUpload "audio" part now rnd with
  | Next req_file => JsonReply (uploadAudio req_file)
  | NextError e => default_error_handler e
  end.

End Uploads.

(** * Vocabulary of the properties *)

(** The record [o] carries the identifier [n]: [o.id === n]. *)
Definition has_id (n : Z) (o : gmap string value) : bool :=
  strict_eq_number (o !! "id") (Some n).

(** [i] is the position of the first record of [objs] that carries [n]. *)
Definition first_with_id (n : Z) (objs : list (gmap string value)) (i : nat)
    (o : gmap string value) : Prop :=
  objs !! i = Some o /\ o !! "id" = Some (VNum n) /\
  forall (j : nat) (o' : gmap string value),
    (j < i)%nat -> objs !! j = Some o' -> o' !! "id" <> Some (VNum n).

(** The identifier of a record is absent or a number. *)
Definition plain_id (o : gmap string value) : Prop :=
  o !! "id" = None \/ exists z, o !! "id" = Some (VNum z).

(** The identifier of a record as a number, 0 when it has none. *)
Definition id_or_zero (o : gmap string value) : Z :=
  match o !! "id" with
  | Some (VNum z) => z
  | _ => 0
  end.

(** [Number.isSafeInteger]: an integer of absolute value below 2^53.  On
    the safe integers the numbers of JavaScript are the integers: a literal
    or a digit run is its exact value, [===] is equality, and adding 1
    gives the next integer (at most 2^53, which is still exact).  From 2^53
    on one number stands for several integers. *)
Definition safe_integer (z : Z) : Prop := - 2 ^ 53 < z < 2 ^ 53.

(** The identifier of a record, 0 when it has none, is a safe integer. *)
Definition safe_id (o : gmap string value) : Prop := safe_integer (id_or_zero o).

(** The identifiers of the records are above [-2^53] and below [b]. *)
Definition ids_below (b : Z) (objs : list (gmap string value)) : Prop :=
  Forall (fun o => - 2 ^ 53 < id_or_zero o < b) objs.

(** A number of arguments that Node passes in one call.  The limit of the
    engine is set by the size of its stack (above 100000 arguments with the
    default size); the properties of [newId] are stated for catalogs of at
    most [spread_limit] records, which [Math.max(...ids)] takes. *)
Definition spread_limit : Z := 10000.

Definition spreadable (objs : list (gmap string value)) : Prop :=
  Z.of_nat (length objs) <= spread_limit.

(** The records of a catalog all carry a numeric identifier, and no two
    carry the same. *)
Definition distinct_ids (objs : list (gmap string value)) : Prop :=
  Forall (fun o => exists z, o !! "id" = Some (VNum z)) objs
  /\ NoDup (id_or_zero <$> objs).

(** A creation request whose body has no [id]. *)
Definition no_id_in_body (r : request) : Prop :=
  match r with
  | Create reqBody _ _ => reqBody !! "id" = None
  | _ => True
  end.

(** The catalog file at [path] in [w] holds the sequence [objs] of
    records: the file is the JSON array of these objects, or there is no
    file and the sequence is empty. *)
Definition holds_catalog (w : World) (path : string)
    (objs : list (gmap string value)) : Prop :=
  disk w !! path = Some (File (Json (VArr (VObj <$> objs))))
  \/ (disk w !! path = None /\ objs = []).

(** The field [f] of a record is absent, falsy or a string: what an upload
    URL field holds. *)
Definition upload_field (o : gmap string value) (f : string) : Prop :=
  truthy (o !! f) = true -> exists s, o !! f = Some (VStr s).

(** The field [f] of a record is the URL [s] of an upload. *)
Definition upload_url (o : gmap string value) (f s : string) : Prop :=
  o !! f = Some (VStr s) /\ s <> "" /\ String.prefix "/uploads/" s = true.

(** Every value the program [m] returns satisfies [P], it may throw, and it
    stays within the modelled fragment. *)
Definition returns {A : Type} (P : A -> Prop) (m : M A) : Prop :=
  forall w, match fst (m w) with
            | Ret a => P a
            | Throw _ => True
            | Unmodelled => False
            end.

(** The program [m] leaves every path outside [Q] as it is. *)
Definition touches_only {A : Type} (Q : string -> Prop) (m : M A) : Prop :=
  forall w q, ~ Q q -> disk (snd (m w)) !! q = disk w !! q.

(** At every path outside [Q] the program [m] leaves what there was, or
    nothing. *)
Definition only_removes {A : Type} (Q : string -> Prop) (m : M A) : Prop :=
  forall w q, ~ Q q ->
    disk (snd (m w)) !! q = disk w !! q \/ disk (snd (m w)) !! q = None.

(** What [loadProducts] makes of the node at the path of a catalog. *)
Definition loaded (n : option node) : outcome value :=
  match n with
  | Some (File (Json v)) => Ret v
  | Some (File (Malformed _)) => Throw SyntaxError
  | Some (Faulty code) =>
      if decide (code = "ENOENT") then Ret (VArr []) else Throw (SystemError code)
  | None => Ret (VArr [])
  end.

(** The program [m] adds to the trace only events in [R]. *)
Definition emits {A : Type} (R : event -> Prop) (m : M A) : Prop :=
  forall w, exists evs, trace (snd (m w)) = (trace w ++ evs)%list /\ Forall R evs.

(** The events of a route that only reads the catalog file at [path]. *)
Definition read_event (path : string) (ev : event) : Prop :=
  match ev with
  | EvReadFile p => p = path
  | EvConsoleError _ _ => True
  | _ => False
  end.

(** The events of a route that reads and writes the catalog file at
    [path]. *)
Definition catalog_event (path : string) (ev : event) : Prop :=
  match ev with
  | EvReadFile p => p = path
  | EvWriteFile p _ => p = path
  | EvConsoleError _ _ => True
  | EvUnlink _ => False
  end.

(** The events of the delete route on the catalog file at [path]: it may
    also unlink [join dir s] for strings [s] that begin with [/uploads/]. *)
Definition delete_event (dir : string) (join : string -> string -> string)
    (path : string) (ev : event) : Prop :=
  match ev with
  | EvReadFile p => p = path
  | EvWriteFile p _ => p = path
  | EvConsoleError _ _ => True
  | EvUnlink p => exists s, String.prefix "/uploads/" s = true /\ p = join dir s
  end.

(** The outcome [o] is an answer whose status is one of [codes]. *)
Definition answers_within (codes : list Z) (o : outcome response) : Prop :=
  exists r, o = Ret r /\ status r ∈ codes.


(** * Concrete requests *)

(** A deployment: the application directory, and [path.join] on the paths
    used below, which have no [.] or [..] segment to normalise. *)
Definition app_dir : string := "/srv/tutustore".
Definition join_segments (a b : string) : string :=
  match b with
  | String "/" _ => a +:+ b
  | _ => a +:+ "/" +:+ b
  end.

Definition coffee_path : string := "/srv/tutustore/data/products_coffee.json".

(** A world with no file at all. *)
Definition fresh_world : World := {| disk := ∅; trace := [] |}.

Definition latte : gmap string value :=
  obj [("id", VNum 1); ("name", VStr "Latte"); ("price", VNum 4);
       ("createdAt", VStr "2024-01-01T10:00:00.000Z");
       ("updatedAt", VStr "2024-01-01T10:00:00.000Z")].

Definition mocha : gmap string value :=
  obj [("id", VNum 2); ("name", VStr "Mocha");
       ("image", VStr "/uploads/images/1700000000000-42.png");
       ("createdAt", VStr "2024-01-02T10:00:00.000Z");
       ("updatedAt", VStr "2024-01-02T10:00:00.000Z")].

(** A world whose coffee catalog holds the two records; the image of the
    second one is not on the disk. *)
Definition coffee_world : World :=
  {| disk := {[ coffee_path := File (Json (VArr [VObj latte; VObj mocha])) ]};
     trace := [] |}.

Definition body_with_id : gmap string value :=
  obj [("id", VNum 42); ("name", VStr "Latte")].

(** The coffee catalog after two creations from the body above. *)
Definition twice_created : World :=
  snd (createProduct app_dir join_segments "coffee" body_with_id "t3" "t4"
         (snd (createProduct app_dir join_segments "coffee" body_with_id "t1" "t2"
                 fresh_world))).

(** The scenario of the specification: create a latte, update its price,
    delete it. *)
Definition latte_body : gmap string value :=
  obj [("name", VStr "Latte"); ("price", VFrac "4.5")].

Definition latte_created : World :=
  snd (createProduct app_dir join_segments "coffee" latte_body
         "2024-03-01T09:00:00.000Z" "2024-03-01T09:00:00.001Z" fresh_world).

Definition latte_updated : World :=
  snd (updateProduct app_dir join_segments "coffee" "1" (obj [("price", VNum 5)])
         "2024-03-02T09:00:00.000Z" latte_created).

Definition latte_deleted : World :=
  snd (deleteProduct app_dir join_segments "coffee" "1" latte_updated).

(** A record whose [audioFile] is a number, and a world whose coffee
    catalog holds it, with its image on the disk. *)
Definition espresso : gmap string value :=
  obj [("id", VNum 1); ("name", VStr "Espresso");
       ("image", VStr "/uploads/images/espresso.png"); ("audioFile", VNum 5)].

Definition espresso_world : World :=
  {| disk := {[ coffee_path := File (Json (VArr [VObj espresso]));
                "/srv/tutustore/uploads/images/espresso.png" := File (Malformed "PNG") ]};
     trace := [] |}.

Definition unreadable_world : World :=
  {| disk := {[ coffee_path := Faulty "EACCES" ]}; trace := [] |}.

Definition garbled_world : World :=
  {| disk := {[ coffee_path := File (Malformed "[{") ]}; trace := [] |}.

(** A world in which the [data] directory is missing: every call on the
    path of the coffee catalog fails with ENOENT. *)
Definition no_directory_world : World :=
  {| disk := {[ coffee_path := Faulty "ENOENT" ]}; trace := [] |}.



Definition cortado_body : gmap string value := obj [("name", VStr "Cortado")].

(** [path.extname] on plain file names such as ["cup.png"]: the suffix
    from the last dot. *)
Fixpoint last_dot_suffix (s : string) : option string :=
  match s with
  | EmptyString => None
  | String c rest =>
      match last_dot_suffix rest with
      | Some e => Some e
      | None => if Ascii.eqb c "." then Some s else None
      end
  end.

Definition plain_extname (s : string) : string := default "" (last_dot_suffix s).

Definition text_as_image : file_part :=
  {| fieldname := "image"; originalname := "notes.txt";
     mimetype := "text/plain"; size := 2048 |}.

Definition large_image : file_part :=
  {| fieldname := "image"; originalname := "poster.png";
     mimetype := "image/png"; size := 11 * 1024 * 1024 |}.

Definition small_image : file_part :=
  {| fieldname := "image"; originalname := "cup.png";
     mimetype := "image/png"; size := 9 * 1024 * 1024 |}.


(** * Properties *)

(** ** Running the monad *)

Lemma bind_Ret {A B : Type} (m : M A) (k : A -> M B) (w w' : World) (a : A) :
  m w = (Ret a, w') -> bind m k w = k a w'.
Proof. unfold bind. intros ->. reflexivity. Qed.

Lemma bind_Throw {A B : Type} (m : M A) (k : A -> M B) (w w' : World) (e : exn) :
  m w = (Throw e, w') -> bind m k w = (Throw e, w').
Proof. unfold bind. intros ->. reflexivity. Qed.

Lemma try_catch_Ret {A : Type} (m : M A) (h : exn -> M A) (w w' : World) (a : A) :
  m w = (Ret a, w') -> try_catch m h w = (Ret a, w').
Proof. unfold try_catch. intros ->. reflexivity. Qed.

Lemma try_catch_Throw {A : Type} (m : M A) (h : exn -> M A) (w w' : World) (e : exn) :
  m w = (Throw e, w') -> try_catch m h w = h e w'.
Proof. unfold try_catch. intros ->. reflexivity. Qed.

(** ** Tactics *)

(** One step of a scan over a catalog of objects. *)
Ltac scan_step :=
  rewrite fmap_cons;
  cbn [findIndex_from find get_prop obind].

(** Steps of a handler's body: the next statement returns. *)
Ltac step_with lem := erewrite bind_Ret; [| first [ apply lem | reflexivity ] ].
Ltac step := erewrite bind_Ret; [| reflexivity ].

(** Closed goals, by evaluation. *)
Ltac evaluate := vm_compute; reflexivity.


(** ** Records and identifiers *)

Lemma has_id_true (n : Z) (o : gmap string value) :
  has_id n o = true <-> o !! "id" = Some (VNum n).
Proof.
  unfold has_id, strict_eq_number.
  destruct (o !! "id") as [[ | | z | | | | ]|]; split; try discriminate.
  - intros H. apply Z.eqb_eq in H. congruence.
  - intros [= ->]. apply Z.eqb_refl.
Qed.

Lemma has_id_false (n : Z) (o : gmap string value) :
  has_id n o = false <-> o !! "id" <> Some (VNum n).
Proof.
  rewrite <- has_id_true. destruct (has_id n o); split; congruence.
Qed.

Lemma first_with_id_exists (n : Z) (objs : list (gmap string value)) :
  (exists o, o ∈ objs /\ o !! "id" = Some (VNum n)) ->
  exists i o, first_with_id n objs i o.
Proof.
  induction objs as [|a objs IH]; intros (o & Hin & Hid).
  - inversion Hin.
  - destruct (has_id n a) eqn:Ha.
    + exists 0%nat, a. split; [reflexivity|]. split; [by apply has_id_true|].
      intros j o' Hj. lia.
    + assert (Hrest : exists o, o ∈ objs /\ o !! "id" = Some (VNum n)).
      { apply elem_of_cons in Hin as [->|Hin].
        - apply has_id_true in Hid. congruence.
        - eauto. }
      destruct (IH Hrest) as (i & o1 & Hi & Hid1 & Hfirst).
      exists (S i), o1. split; [exact Hi|]. split; [exact Hid1|].
      intros [|j] o' Hj Hl.
      * simpl in Hl. injection Hl as <-. by apply has_id_false.
      * simpl in Hl. apply (Hfirst j); [lia|exact Hl].
Qed.

Lemma findIndex_from_first (n : Z) (objs : list (gmap string value)) (i : nat)
    (o : gmap string value) (k : nat) :
  first_with_id n objs i o ->
  findIndex_from k (VObj <$> objs) (Some n) = Ret (Some (k + i)%nat).
Proof.
  revert i k. induction objs as [|a objs IH]; intros i k (Hi & Hid & Hfirst).
  - destruct i; discriminate.
  - scan_step. destruct i as [|i].
    + injection Hi as ->. apply has_id_true in Hid. unfold has_id in Hid.
      rewrite Hid. f_equal. f_equal. lia.
    + assert (Ha : has_id n a = false).
      { apply has_id_false. apply (Hfirst 0%nat); [lia|reflexivity]. }
      unfold has_id in Ha. rewrite Ha.
      rewrite (IH i (S k)).
      * f_equal. f_equal. lia.
      * split; [exact Hi|]. split; [exact Hid|].
        intros j o' Hj Hl. apply (Hfirst (S j)); [lia|exact Hl].
Qed.

Lemma findIndex_first (n : Z) (objs : list (gmap string value)) (i : nat)
    (o : gmap string value) :
  first_with_id n objs i o ->
  findIndex (VObj <$> objs) (Some n) = Ret (Some i).
Proof. intros H. unfold findIndex. by rewrite (findIndex_from_first n objs i o 0). Qed.

Lemma findIndex_from_absent (n : Z) (objs : list (gmap string value)) (k : nat) :
  (forall o, o ∈ objs -> o !! "id" <> Some (VNum n)) ->
  findIndex_from k (VObj <$> objs) (Some n) = Ret None.
Proof.
  revert k. induction objs as [|a objs IH]; intros k H; [reflexivity|]. scan_step.
  assert (Ha : has_id n a = false) by (apply has_id_false, H; left).
  unfold has_id in Ha. rewrite Ha. apply IH. intros o Ho. apply H. by right.
Qed.

Lemma findIndex_from_NaN (objs : list (gmap string value)) (k : nat) :
  findIndex_from k (VObj <$> objs) None = Ret None.
Proof.
  revert k. induction objs as [|a objs IH]; intros k; [reflexivity|]. scan_step.
  unfold strict_eq_number. destruct (a !! "id") as [[]|]; apply IH.
Qed.

Lemma find_first (n : Z) (objs : list (gmap string value)) (i : nat)
    (o : gmap string value) :
  first_with_id n objs i o ->
  find (VObj <$> objs) (Some n) = Ret (Some (VObj o)).
Proof.
  revert i. induction objs as [|a objs IH]; intros i (Hi & Hid & Hfirst).
  - destruct i; discriminate.
  - scan_step. destruct i as [|i].
    + injection Hi as ->. apply has_id_true in Hid. unfold has_id in Hid.
      by rewrite Hid.
    + assert (Ha : has_id n a = false).
      { apply has_id_false. apply (Hfirst 0%nat); [lia|reflexivity]. }
      unfold has_id in Ha. rewrite Ha. apply (IH i).
      split; [exact Hi|]. split; [exact Hid|].
      intros j o' Hj Hl. apply (Hfirst (S j)); [lia|exact Hl].
Qed.

Lemma find_absent (n : Z) (objs : list (gmap string value)) :
  (forall o, o ∈ objs -> o !! "id" <> Some (VNum n)) ->
  find (VObj <$> objs) (Some n) = Ret None.
Proof.
  induction objs as [|a objs IH]; intros H; [reflexivity|]. scan_step.
  assert (Ha : has_id n a = false) by (apply has_id_false, H; left).
  unfold has_id in Ha. rewrite Ha. apply IH. intros o Ho. apply H. by right.
Qed.

Lemma find_NaN (objs : list (gmap string value)) :
  find (VObj <$> objs) None = Ret None.
Proof.
  induction objs as [|a objs IH]; [reflexivity|]. scan_step.
  unfold strict_eq_number. destruct (a !! "id") as [[]|]; apply IH.
Qed.

(** ** parseInt reads back the decimal form of an integer *)

(** [String(n)] for an integer [n] is its decimal form, [pretty n]. *)

Lemma digit_value_decimal (d : N) :
  (d < 10)%N -> digit_value (pretty_N_char d) = Some (Z.of_N d).
Proof.
  intros H.
  assert (d = 0 \/ d = 1 \/ d = 2 \/ d = 3 \/ d = 4 \/ d = 5 \/ d = 6
          \/ d = 7 \/ d = 8 \/ d = 9)%N as Hd by lia.
  repeat (destruct Hd as [->|Hd]; [reflexivity|]). subst d. reflexivity.
Qed.

Lemma radix_prefix_decimal (x : N) :
  (0 < x)%N ->
  forall (s : string) (acc : option Z),
  exists p, radix_prefix 10 (pretty_N_go x s) acc
            = radix_prefix 10 s (Some (default 0 acc * p + Z.of_N x)).
Proof.
  induction (N.lt_wf_0 x) as [x _ IH]. intros Hx s acc.
  rewrite pretty_N_go_step by exact Hx.
  assert (Hmod : (x `mod` 10 < 10)%N) by (apply N.mod_lt; lia).
  pose proof (N.div_mod x 10 ltac:(lia)) as Hdm.
  destruct (decide (x `div` 10 = 0)%N) as [Hz|Hnz].
  - rewrite Hz, pretty_N_go_0. cbn [radix_prefix].
    rewrite (digit_value_decimal _ Hmod).
    destruct (Z.ltb_spec (Z.of_N (x `mod` 10)) 10) as [_|Hge]; [|lia].
    exists 10. do 2 f_equal. lia.
  - destruct (IH (x `div` 10)%N) with
      (s := String (pretty_N_char (x `mod` 10)) s) (acc := acc) as [p Hp].
    + apply N.div_lt; lia.
    + lia.
    + rewrite Hp. cbn [radix_prefix]. rewrite (digit_value_decimal _ Hmod).
      destruct (Z.ltb_spec (Z.of_N (x `mod` 10)) 10) as [_|Hge]; [|lia].
      exists (p * 10). cbn [default]. do 2 f_equal. unfold id. rewrite Z.mul_assoc. lia.
Qed.

Lemma decimal_leading_digit (x : N) :
  (0 < x)%N ->
  forall s : string,
  exists d r, (1 <= d <= 9)%N /\ pretty_N_go x s = String (pretty_N_char d) r.
Proof.
  induction (N.lt_wf_0 x) as [x _ IH]. intros Hx s.
  rewrite pretty_N_go_step by exact Hx.
  pose proof (N.div_mod x 10 ltac:(lia)) as Hdm.
  assert (Hmod : (x `mod` 10 < 10)%N) by (apply N.mod_lt; lia).
  destruct (decide (x `div` 10 = 0)%N) as [Hz|Hnz].
  - rewrite Hz, pretty_N_go_0. exists (x `mod` 10)%N, s. split; [lia|reflexivity].
  - apply IH; [apply N.div_lt; lia | lia].
Qed.

Lemma parseInt_leading_digit (d : N) (r : string) :
  (1 <= d <= 9)%N ->
  parseInt (String (pretty_N_char d) r)
  = radix_prefix 10 (String (pretty_N_char d) r) None
  /\ parseInt (String "-" (String (pretty_N_char d) r))
     = Z.opp <$> radix_prefix 10 (String (pretty_N_char d) r) None.
Proof.
  intros H.
  assert (d = 1 \/ d = 2 \/ d = 3 \/ d = 4 \/ d = 5 \/ d = 6
          \/ d = 7 \/ d = 8 \/ d = 9)%N as Hd by lia.
  assert (Hpos : forall o : option Z,
            match o with Some m => Some (1 * m) | None => None end = o).
  { intros [m|]; [|reflexivity]. f_equal. lia. }
  assert (Hneg : forall o : option Z,
            match o with Some m => Some (-1 * m) | None => None end = Z.opp <$> o).
  { intros [m|]; [|reflexivity]. cbn. f_equal; lia. }
  repeat (destruct Hd as [->|Hd]; [split; [apply Hpos|apply Hneg]|]).
  subst d. split; [apply Hpos|apply Hneg].
Qed.

(** The decimal form of any integer parses back to it. *)
Lemma parseInt_decimal (z : Z) : parseInt (pretty z) = Some z.
Proof.
  destruct z as [|q|q]; [reflexivity| |].
  - unfold pretty, pretty_Z, pretty, pretty_positive, pretty, pretty_N.
    destruct (decide (N.pos q = 0)%N) as [|_]; [discriminate|].
    destruct (decide (0 < N.pos q)%N) as [Hq|]; [|lia].
    destruct (decimal_leading_digit (N.pos q) Hq "") as (d & r & Hd & E).
    destruct (radix_prefix_decimal (N.pos q) Hq "" None) as [p Hp].
    rewrite E in *. rewrite (proj1 (parseInt_leading_digit d r Hd)), Hp.
    cbn. reflexivity.
  - unfold pretty, pretty_Z, pretty, pretty_positive, pretty, pretty_N.
    destruct (decide (N.pos q = 0)%N) as [|_]; [discriminate|].
    destruct (decide (0 < N.pos q)%N) as [Hq|]; [|lia].
    destruct (decimal_leading_digit (N.pos q) Hq "") as (d & r & Hd & E).
    destruct (radix_prefix_decimal (N.pos q) Hq "" None) as [p Hp].
    rewrite E in *.
    change ("-" +:+ String (pretty_N_char d) r)
      with (String "-" (String (pretty_N_char d) r)).
    rewrite (proj2 (parseInt_leading_digit d r Hd)), Hp.
    cbn. reflexivity.
Qed.

(** The decimal form of an integer followed by anything that does not
    begin with a decimal digit parses to the integer; after a lone [0] the
    letters [x] and [X] are excluded, which would announce radix 16. *)
Lemma pretty_N_go_app (x : N) (s t : string) :
  pretty_N_go x s +:+ t = pretty_N_go x (s +:+ t).
Proof.
  revert s. induction (N.lt_wf_0 x) as [x _ IH]. intros s.
  destruct (decide (x = 0)%N) as [->|Hx]; [by rewrite !pretty_N_go_0|].
  rewrite (pretty_N_go_step x s), (pretty_N_go_step x (s +:+ t)) by lia.
  rewrite IH by (apply N.div_lt; lia). reflexivity.
Qed.

Lemma radix_prefix_stops (c : ascii) (rest : string) (acc : option Z) :
  (forall d, digit_value c = Some d -> 10 <= d) ->
  radix_prefix 10 (String c rest) acc = acc.
Proof.
  intros Hdigit. cbn [radix_prefix]. destruct (digit_value c) as [d|]; [|reflexivity].
  specialize (Hdigit d eq_refl). destruct (Z.ltb_spec d 10); [lia|reflexivity].
Qed.

Lemma parseInt_zero_prefix (c : ascii) (rest : string) :
  (forall d, digit_value c = Some d -> 10 <= d) ->
  c <> "x"%char -> c <> "X"%char ->
  parseInt (String "0" (String c rest)) = Some 0.
Proof.
  intros Hdigit Hx HX.
  destruct c as [[] [] [] [] [] [] [] []];
    first [ reflexivity
          | exfalso; apply Hx; reflexivity
          | exfalso; apply HX; reflexivity
          | exfalso;
            match type of Hdigit with
            | forall d, ?v = _ -> _ =>
                let r := eval vm_compute in v in
                change v with r in Hdigit
            end;
            specialize (Hdigit _ eq_refl); lia ].
Qed.

Lemma append_empty (s : string) : s +:+ "" = s.
Proof.
  induction s as [|c s IH]; [reflexivity|].
  change (String c (s +:+ "") = String c s). by rewrite IH.
Qed.

Lemma parseInt_numeric_prefix (z : Z) (c : ascii) (rest : string) :
  (forall d, digit_value c = Some d -> 10 <= d) ->
  (z = 0 -> c <> "x"%char /\ c <> "X"%char) ->
  parseInt (pretty z +:+ String c rest) = Some z.
Proof.
  intros Hdigit Hzero.
  destruct z as [|q|q].
  - destruct (Hzero eq_refl) as [Hx HX]. by apply parseInt_zero_prefix.
  - unfold pretty, pretty_Z, pretty, pretty_positive, pretty, pretty_N.
    destruct (decide (N.pos q = 0)%N) as [|_]; [discriminate|].
    destruct (decide (0 < N.pos q)%N) as [Hq|]; [|lia].
    rewrite pretty_N_go_app. change ("" +:+ String c rest) with (String c rest).
    destruct (decimal_leading_digit (N.pos q) Hq (String c rest)) as (d & r & Hd & E).
    destruct (radix_prefix_decimal (N.pos q) Hq (String c rest) None) as [p Hp].
    rewrite E in *. rewrite (proj1 (parseInt_leading_digit d r Hd)), Hp.
    rewrite radix_prefix_stops by exact Hdigit. cbn. reflexivity.
  - unfold pretty, pretty_Z, pretty, pretty_positive, pretty, pretty_N.
    destruct (decide (N.pos q = 0)%N) as [|_]; [discriminate|].
    destruct (decide (0 < N.pos q)%N) as [Hq|]; [|lia].
    change (("-" +:+ pretty_N_go (N.pos q) "") +:+ String c rest)
      with (String "-" (pretty_N_go (N.pos q) "" +:+ String c rest)).
    rewrite pretty_N_go_app. change ("" +:+ String c rest) with (String c rest).
    destruct (decimal_leading_digit (N.pos q) Hq (String c rest)) as (d & r & Hd & E).
    destruct (radix_prefix_decimal (N.pos q) Hq (String c rest) None) as [p Hp].
    rewrite E in *. rewrite (proj2 (parseInt_leading_digit d r Hd)), Hp.
    rewrite radix_prefix_stops by exact Hdigit. cbn. reflexivity.
Qed.

(** A string that begins with anything but white space, a sign or a
    decimal digit (a letter, say) is not a number for [parseInt]. *)
Lemma parseInt_NaN_first_char (c : ascii) (rest : string) :
  is_white_space c = false ->
  c <> "-"%char -> c <> "+"%char ->
  (forall d, digit_value c = Some d -> 10 <= d) ->
  parseInt (String c rest) = None.
Proof.
  intros Hws Hminus Hplus Hdigit.
  destruct c as [[] [] [] [] [] [] [] []];
    first [ reflexivity
          | discriminate Hws
          | exfalso; apply Hminus; reflexivity
          | exfalso; apply Hplus; reflexivity
          | exfalso;
            match type of Hdigit with
            | forall d, ?v = _ -> _ =>
                let r := eval vm_compute in v in
                change v with r in Hdigit
            end;
            specialize (Hdigit _ eq_refl); lia ].
Qed.

(** ** The new identifier *)

Lemma ToNumber_or_zero_plain (o : gmap string value) :
  plain_id o -> ToNumber (or_zero (o !! "id")) = Ret (id_or_zero o).
Proof.
  unfold id_or_zero. intros [H|[z H]]; rewrite H; [reflexivity|].
  cbn. destruct (Z.eqb_spec z 0) as [->|]; reflexivity.
Qed.

Lemma map_id_operands (objs : list (gmap string value)) :
  mapM (fun p => let+ v := get_prop p "id" in Ret (or_zero v)) (VObj <$> objs)
  = Ret ((fun o => or_zero (o !! "id")) <$> objs).
Proof.
  induction objs as [|a objs IH]; [reflexivity|].
  rewrite !fmap_cons. cbn [mapM get_prop obind]. by rewrite IH.
Qed.

Lemma map_ToNumber_plain (objs : list (gmap string value)) :
  Forall plain_id objs ->
  mapM ToNumber ((fun o => or_zero (o !! "id")) <$> objs) = Ret (id_or_zero <$> objs).
Proof.
  induction 1 as [|a objs Ha _ IH]; [reflexivity|].
  rewrite !fmap_cons. cbn [mapM]. rewrite (ToNumber_or_zero_plain a Ha).
  cbn [obind]. by rewrite IH.
Qed.

Lemma newId_plain (o : gmap string value) (objs : list (gmap string value)) :
  Forall plain_id (o :: objs) ->
  newId (VObj <$> o :: objs)
  = Ret (Math_max (id_or_zero o) (id_or_zero <$> objs) + 1).
Proof.
  intros H. unfold newId. rewrite length_fmap. cbn [length Nat.ltb Nat.leb].
  rewrite map_id_operands. cbn [obind].
  rewrite (map_ToNumber_plain _ H). reflexivity.
Qed.

Lemma Math_max_ge_first (n : Z) (ns : list Z) : n <= Math_max n ns.
Proof.
  unfold Math_max. revert n. induction ns as [|m ns IH]; intros n; cbn; [lia|].
  specialize (IH (Z.max n m)). lia.
Qed.

Lemma Math_max_ge (n : Z) (ns : list Z) (x : Z) : x ∈ n :: ns -> x <= Math_max n ns.
Proof.
  unfold Math_max. revert n. induction ns as [|m ns IH]; intros n Hin.
  - apply list_elem_of_singleton in Hin as ->. cbn. lia.
  - cbn. apply elem_of_cons in Hin as [->|Hin].
    + pose proof (Math_max_ge_first (Z.max n m) ns). unfold Math_max in *. lia.
    + apply elem_of_cons in Hin as [->|Hin].
      * pose proof (Math_max_ge_first (Z.max n m) ns). unfold Math_max in *. lia.
      * apply IH. by right.
Qed.

Lemma Math_max_in (n : Z) (ns : list Z) : Math_max n ns ∈ n :: ns.
Proof.
  unfold Math_max. revert n. induction ns as [|m ns IH]; intros n; cbn; [left|].
  specialize (IH (Z.max n m)). apply elem_of_cons in IH as [E|IH].
  - rewrite E. destruct (Z.max_spec n m) as [[_ ->]|[_ ->]]; [right; left|left].
  - right. by right.
Qed.

Lemma Math_max_nonneg (n : Z) (ns : list Z) :
  0 <= n -> Forall (fun x => 0 <= x) ns ->
  Math_max n ns = foldr Z.max 0 (n :: ns).
Proof.
  unfold Math_max. revert n. induction ns as [|m ns IH]; intros n Hn Hns; cbn.
  - lia.
  - apply Forall_cons in Hns as [Hm Hns].
    rewrite (IH (Z.max n m)) by (lia || exact Hns). cbn. lia.
Qed.

(** The new identifier of a catalog of records with plain identifiers is
    above every identifier in it. *)
Lemma newId_fresh (objs : list (gmap string value)) :
  Forall plain_id objs ->
  exists n, newId (VObj <$> objs) = Ret n
            /\ forall o, o ∈ objs -> o !! "id" <> Some (VNum n).
Proof.
  intros H. destruct objs as [|a objs].
  - exists 1. split; [reflexivity|]. intros o Ho. inversion Ho.
  - eexists. split; [by apply newId_plain|]. intros o Ho Hid.
    assert (Hle : id_or_zero o <= Math_max (id_or_zero a) (id_or_zero <$> objs)).
    { apply Math_max_ge. rewrite <- fmap_cons. by apply list_elem_of_fmap_2. }
    unfold id_or_zero at 1 in Hle. rewrite Hid in Hle. lia.
Qed.

(** On safe identifiers the new identifier is exact: it is above [-2^53]
    and at most one more than a bound of the stored ones. *)
Lemma newId_below (objs : list (gmap string value)) (b n : Z) :
  Forall plain_id objs ->
  ids_below b objs ->
  1 <= b ->
  newId (VObj <$> objs) = Ret n ->
  - 2 ^ 53 < n < b + 1.
Proof.
  intros Hplain Hbelow Hb. destruct objs as [|a objs]; [intros [= <-]; lia|].
  rewrite (newId_plain a objs Hplain). intros [= <-].
  pose proof (Math_max_in (id_or_zero a) (id_or_zero <$> objs)) as Hin.
  rewrite <- fmap_cons in Hin. apply list_elem_of_fmap in Hin as (o & -> & Ho).
  unfold ids_below in Hbelow. rewrite Forall_forall in Hbelow.
  specialize (Hbelow o Ho). lia.
Qed.

(** ** Effects of a program *)

Lemma bind_Unmodelled {A B : Type} (m : M A) (k : A -> M B) (w w' : World) :
  m w = (Unmodelled, w') -> bind m k w = (Unmodelled, w').
Proof. unfold bind. intros ->. reflexivity. Qed.

Lemma returns_ret {A : Type} (P : A -> Prop) (a : A) : P a -> returns P (ret a).
Proof. intros H w. exact H. Qed.

Lemma returns_throw {A : Type} (P : A -> Prop) (e : exn) : returns P (throw e).
Proof. intros w. exact I. Qed.

Lemma returns_bind {A B : Type} (Q : A -> Prop) (P : B -> Prop)
    (m : M A) (k : A -> M B) :
  returns Q m -> (forall a, Q a -> returns P (k a)) -> returns P (bind m k).
Proof.
  intros Hm Hk w. specialize (Hm w). unfold bind.
  destruct (m w) as [[a|e|] w1]; cbn in *; [|exact I|contradiction].
  apply (Hk a Hm).
Qed.

Lemma returns_weaken {A : Type} (P Q : A -> Prop) (m : M A) :
  returns P m -> (forall a, P a -> Q a) -> returns Q m.
Proof.
  intros Hm HPQ w. specialize (Hm w). destruct (fst (m w)); auto.
Qed.

Lemma returns_try_catch {A : Type} (P : A -> Prop) (m : M A) (h : exn -> M A) :
  returns P m -> (forall e, returns P (h e)) -> returns P (try_catch m h).
Proof.
  intros Hm Hh w. specialize (Hm w). unfold try_catch.
  destruct (m w) as [[a|e|] w1]; cbn in *; [exact Hm|apply Hh|contradiction].
Qed.

Lemma returns_lift {A : Type} (P : A -> Prop) (o : outcome A) :
  match o with Ret a => P a | Throw _ => True | Unmodelled => False end ->
  returns P (lift o).
Proof. intros H w. exact H. Qed.

Lemma touches_ret {A : Type} (Q : string -> Prop) (a : A) : touches_only Q (ret a).
Proof. intros w q _. reflexivity. Qed.

Lemma touches_lift {A : Type} (Q : string -> Prop) (o : outcome A) :
  touches_only Q (lift o).
Proof. intros w q _. reflexivity. Qed.

Lemma touches_throw {A : Type} (Q : string -> Prop) (e : exn) :
  touches_only Q (@throw A e).
Proof. intros w q _. reflexivity. Qed.

Lemma touches_bind {A B : Type} (Q : string -> Prop) (m : M A) (k : A -> M B) :
  touches_only Q m -> (forall a, touches_only Q (k a)) -> touches_only Q (bind m k).
Proof.
  intros Hm Hk w q Hq. specialize (Hm w q Hq). unfold bind.
  destruct (m w) as [[a|e|] w1]; cbn in *; [|exact Hm|exact Hm].
  rewrite (Hk a w1 q Hq). exact Hm.
Qed.

Lemma touches_try_catch {A : Type} (Q : string -> Prop) (m : M A) (h : exn -> M A) :
  touches_only Q m -> (forall e, touches_only Q (h e)) ->
  touches_only Q (try_catch m h).
Proof.
  intros Hm Hh w q Hq. specialize (Hm w q Hq). unfold try_catch.
  destruct (m w) as [[a|e|] w1]; cbn in *; [exact Hm| |exact Hm].
  rewrite (Hh e w1 q Hq). exact Hm.
Qed.

Lemma touches_readFile (Q : string -> Prop) (path : string) :
  touches_only Q (readFile path).
Proof.
  intros w q _. unfold readFile. by destruct (disk w !! path) as [[t|code]|].
Qed.

Lemma touches_console_error (Q : string -> Prop) (msg : string) (e : exn) :
  touches_only Q (console_error msg e).
Proof. intros w q _. reflexivity. Qed.

Lemma touches_writeFile (Q : string -> Prop) (path : string) (t : text) :
  Q path -> touches_only Q (writeFile path t).
Proof.
  intros HQ w q Hq. unfold writeFile.
  destruct (disk w !! path) as [[t0|code]|]; cbn; try reflexivity;
    apply lookup_insert_ne; by intros ->.
Qed.

Lemma touches_unlink (Q : string -> Prop) (path : string) :
  Q path -> touches_only Q (unlink path).
Proof.
  intros HQ w q Hq. unfold unlink.
  destruct (disk w !! path) as [[t0|code]|]; cbn; try reflexivity.
  apply lookup_delete_ne. by intros ->.
Qed.

Lemma emits_nothing {A : Type} (R : event -> Prop) (m : M A) :
  (forall w, snd (m w) = w) -> emits R m.
Proof.
  intros H w. exists []. rewrite H, app_nil_r. split; [reflexivity|constructor].
Qed.

Lemma emits_one {A : Type} (R : event -> Prop) (m : M A) (ev : event) :
  R ev -> (forall w, trace (snd (m w)) = (trace w ++ [ev])%list) -> emits R m.
Proof.
  intros HR H w. exists [ev]. split; [apply H|]. by repeat constructor.
Qed.

Lemma emits_bind {A B : Type} (R : event -> Prop) (m : M A) (k : A -> M B) :
  emits R m -> (forall a, emits R (k a)) -> emits R (bind m k).
Proof.
  intros Hm Hk w. destruct (Hm w) as (evs & Ht & HR). unfold bind.
  destruct (m w) as [[a|e|] w1]; cbn in *; [|by exists evs|by exists evs].
  destruct (Hk a w1) as (evs' & Ht' & HR'). exists (evs ++ evs')%list.
  split; [by rewrite Ht', Ht, app_assoc|by apply Forall_app].
Qed.

Lemma emits_try_catch {A : Type} (R : event -> Prop) (m : M A) (h : exn -> M A) :
  emits R m -> (forall e, emits R (h e)) -> emits R (try_catch m h).
Proof.
  intros Hm Hh w. destruct (Hm w) as (evs & Ht & HR). unfold try_catch.
  destruct (m w) as [[a|e|] w1]; cbn in *; [by exists evs| |by exists evs].
  destruct (Hh e w1) as (evs' & Ht' & HR'). exists (evs ++ evs')%list.
  split; [by rewrite Ht', Ht, app_assoc|by apply Forall_app].
Qed.

Lemma emits_readFile (R : event -> Prop) (path : string) :
  R (EvReadFile path) -> emits R (readFile path).
Proof.
  intros HR. apply (emits_one R _ (EvReadFile path) HR). intros w.
  unfold readFile. by destruct (disk w !! path) as [[t|code]|].
Qed.

Lemma emits_writeFile (R : event -> Prop) (path : string) (t : text) :
  R (EvWriteFile path t) -> emits R (writeFile path t).
Proof.
  intros HR. apply (emits_one R _ (EvWriteFile path t) HR). intros w.
  unfold writeFile. by destruct (disk w !! path) as [[t0|code]|].
Qed.

Lemma emits_unlink (R : event -> Prop) (path : string) :
  R (EvUnlink path) -> emits R (unlink path).
Proof.
  intros HR. apply (emits_one R _ (EvUnlink path) HR). intros w.
  unfold unlink. by destruct (disk w !! path) as [[t0|code]|].
Qed.

Lemma emits_console_error (R : event -> Prop) (msg : string) (e : exn) :
  R (EvConsoleError msg e) -> emits R (console_error msg e).
Proof. intros HR. by apply (emits_one R _ (EvConsoleError msg e) HR). Qed.

Lemma only_removes_touches {A : Type} (Q : string -> Prop) (m : M A) :
  touches_only Q m -> only_removes Q m.
Proof. intros H w q Hq. left. by apply H. Qed.

Lemma only_removes_bind {A B : Type} (Q : string -> Prop) (m : M A) (k : A -> M B) :
  only_removes Q m -> (forall a, only_removes Q (k a)) -> only_removes Q (bind m k).
Proof.
  intros Hm Hk w q Hq. specialize (Hm w q Hq). unfold bind.
  destruct (m w) as [[a|e|] w1]; cbn in *; [|exact Hm|exact Hm].
  destruct (Hk a w1 q Hq) as [E|E]; [rewrite E; exact Hm|by right].
Qed.

Lemma only_removes_try_catch {A : Type} (Q : string -> Prop) (m : M A)
    (h : exn -> M A) :
  only_removes Q m -> (forall e, only_removes Q (h e)) ->
  only_removes Q (try_catch m h).
Proof.
  intros Hm Hh w q Hq. specialize (Hm w q Hq). unfold try_catch.
  destruct (m w) as [[a|e|] w1]; cbn in *; [exact Hm| |exact Hm].
  destruct (Hh e w1 q Hq) as [E|E]; [rewrite E; exact Hm|by right].
Qed.

Lemma only_removes_unlink (Q : string -> Prop) (path : string) :
  only_removes Q (unlink path).
Proof.
  intros w q _. unfold unlink.
  destruct (disk w !! path) as [[t0|code]|] eqn:E; cbn; try by left.
  destruct (decide (q = path)) as [->|Hq].
  - right. apply lookup_delete_eq.
  - left. by apply lookup_delete_ne.
Qed.

Lemma touches_bind_lift {A B : Type} (Q : string -> Prop) (o : outcome A)
    (k : A -> M B) :
  (forall a, o = Ret a -> touches_only Q (k a)) -> touches_only Q (bind (lift o) k).
Proof.
  intros Hk w q Hq. unfold bind, lift. destruct o as [a|e|]; try reflexivity.
  by apply (Hk a eq_refl).
Qed.

Lemma only_removes_bind_lift {A B : Type} (Q : string -> Prop) (o : outcome A)
    (k : A -> M B) :
  (forall a, o = Ret a -> only_removes Q (k a)) -> only_removes Q (bind (lift o) k).
Proof.
  intros Hk w q Hq. unfold bind, lift. destruct o as [a|e|]; try by left.
  by apply (Hk a eq_refl).
Qed.

Lemma emits_bind_lift {A B : Type} (R : event -> Prop) (o : outcome A)
    (k : A -> M B) :
  (forall a, o = Ret a -> emits R (k a)) -> emits R (bind (lift o) k).
Proof.
  intros Hk w. unfold bind, lift.
  destruct o as [a|e|]; [by apply (Hk a eq_refl)| |];
    (exists []; rewrite app_nil_r; split; [reflexivity|constructor]).
Qed.

Lemma emits_ret {A : Type} (R : event -> Prop) (a : A) : emits R (ret a).
Proof. apply emits_nothing. by intros w. Qed.

Lemma touches_weaken {A : Type} (Q Q' : string -> Prop) (m : M A) :
  (forall q, Q q -> Q' q) -> touches_only Q m -> touches_only Q' m.
Proof. intros HQ Hm w q Hq. apply Hm. intros H. by apply Hq, HQ. Qed.

Lemma only_removes_weaken {A : Type} (Q Q' : string -> Prop) (m : M A) :
  (forall q, Q q -> Q' q) -> only_removes Q m -> only_removes Q' m.
Proof. intros HQ Hm w q Hq. apply Hm. intros H. by apply Hq, HQ. Qed.

Lemma untouched_disk {A : Type} (m : M A) (w : World) :
  touches_only (fun _ => False) m -> disk (snd (m w)) = disk w.
Proof. intros H. apply map_eq. intros q. apply H. tauto. Qed.

(** A route that catches every exception of its body to answer 500. *)
Lemma route_answers (codes : list Z) (m : M response) (msg1 msg2 : string) (w : World) :
  500 ∈ codes ->
  returns (fun r => status r ∈ codes) m ->
  answers_within codes
    (fst (try_catch m
            (fun error => console_error msg1 error ;; ret (error_response 500 msg2)) w)).
Proof.
  intros H500 Hm. specialize (Hm w). unfold try_catch.
  destruct (m w) as [[r|e|] w1]; cbn in *; [by exists r| |contradiction].
  by eexists.
Qed.

(** A scan of any array returns or throws. *)
Lemma find_returns_or_throws (products : list value) (n : option Z) :
  find products n <> Unmodelled.
Proof.
  induction products as [|p rest IH]; [discriminate|]. cbn [find].
  destruct (get_prop p "id") as [v|e|] eqn:E; cbn [obind]; [|discriminate|].
  - destruct (strict_eq_number v n); [discriminate|exact IH].
  - destruct p; discriminate E.
Qed.

Lemma findIndex_from_returns_or_throws (products : list value) (n : option Z) (k : nat) :
  findIndex_from k products n <> Unmodelled.
Proof.
  revert k. induction products as [|p rest IH]; intros k; [discriminate|].
  cbn [findIndex_from].
  destruct (get_prop p "id") as [v|e|] eqn:E; cbn [obind]; [|discriminate|].
  - destruct (strict_eq_number v n); [discriminate|apply IH].
  - destruct p; discriminate E.
Qed.

(** The index a scan returns is an index of the array. *)
Lemma findIndex_from_in_range (products : list value) (n : option Z) (k i : nat) :
  findIndex_from k products n = Ret (Some i) ->
  (k <= i < k + length products)%nat.
Proof.
  revert k. induction products as [|p rest IH]; intros k; [discriminate|].
  cbn [findIndex_from].
  destruct (get_prop p "id") as [v|e|]; cbn [obind]; try discriminate.
  destruct (strict_eq_number v n).
  - intros [= ->]. cbn. lia.
  - intros H. apply IH in H. cbn. lia.
Qed.

(** A scan that finds something was looking for a number, not for [NaN]. *)
Lemma findIndex_from_number (products : list value) (n : option Z) (k i : nat) :
  findIndex_from k products n = Ret (Some i) -> exists z, n = Some z.
Proof.
  revert k. induction products as [|p rest IH]; intros k; [discriminate|].
  cbn [findIndex_from].
  destruct (get_prop p "id") as [v|e|]; cbn [obind]; try discriminate.
  destruct (strict_eq_number v n) eqn:E; [|apply IH].
  intros _. destruct n as [z|]; [by exists z|].
  by destruct v as [[ | | | | | | ]|].
Qed.

(** Replacing the element a scan found by one that matches as well leaves
    the scan where it was, and [find] returns the new element. *)
Lemma scan_after_insert (products : list value) (n : option Z) (k i : nat)
    (x : value) (v : option value) :
  findIndex_from k products n = Ret (Some i) ->
  get_prop x "id" = Ret v ->
  strict_eq_number v n = true ->
  findIndex_from k (<[(i - k)%nat := x]> products) n = Ret (Some i)
  /\ find (<[(i - k)%nat := x]> products) n = Ret (Some x).
Proof.
  intros Hidx Hx Hv. revert k Hidx.
  induction products as [|p rest IH]; intros k; [discriminate|].
  cbn [findIndex_from].
  destruct (get_prop p "id") as [v0|e|] eqn:Hp; cbn [obind]; try discriminate.
  destruct (strict_eq_number v0 n) eqn:E.
  - intros [= <-]. rewrite Nat.sub_diag. cbn [insert list_insert].
    cbn [findIndex_from find]. rewrite Hx. cbn [obind]. by rewrite Hv.
  - intros Hidx. pose proof (findIndex_from_in_range _ _ _ _ Hidx) as Hr.
    replace (i - k)%nat with (S (i - S k)) by lia.
    cbn [insert list_insert]. cbn [findIndex_from find]. rewrite Hp. cbn [obind].
    rewrite E. apply (IH (S k) Hidx).
Qed.

(** The record the update handler builds, built again over itself. *)
Lemma updated_record_again (old : value) (reqBody : gmap string value)
    (n : option Z) (now : string) :
  updated_record (VObj (updated_record old reqBody n now)) reqBody n now
  = updated_record old reqBody n now.
Proof.
  apply map_eq. intros k. unfold updated_record at 1. cbn [spread].
  destruct (decide (k = "updatedAt")) as [->|Hu].
  { unfold updated_record. by rewrite !lookup_insert_eq. }
  rewrite lookup_insert_ne by done.
  destruct (decide (k = "id")) as [->|Hi].
  { unfold updated_record. rewrite lookup_insert_eq, lookup_insert_ne by done.
    by rewrite lookup_insert_eq. }
  rewrite lookup_insert_ne by done. unfold updated_record.
  rewrite lookup_union, !lookup_insert_ne, lookup_union by done.
  by destruct (reqBody !! k), (spread old !! k).
Qed.

(** ** The catalog file *)

Section ServerFacts.

Variable dirname : string.
Variable path_join : string -> string -> string.

#[local] Abbreviation catalog_path := (getProductsFilePath dirname path_join).
#[local] Abbreviation load := (loadProducts dirname path_join).
#[local] Abbreviation save := (saveProducts dirname path_join).

Lemma load_json (w : World) (category : string) (v : value) :
  disk w !! catalog_path category = Some (File (Json v)) ->
  load category w = (Ret v, record_event (EvReadFile (catalog_path category)) w).
Proof.
  intros H. unfold loadProducts, try_catch, bind, readFile. rewrite H. reflexivity.
Qed.

Lemma load_absent (w : World) (category : string) :
  disk w !! catalog_path category = None ->
  load category w = (Ret (VArr []), record_event (EvReadFile (catalog_path category)) w).
Proof.
  intros H. unfold loadProducts, try_catch, bind, readFile. rewrite H. reflexivity.
Qed.

Lemma load_malformed (w : World) (category s : string) :
  disk w !! catalog_path category = Some (File (Malformed s)) ->
  load category w = (Throw SyntaxError, record_event (EvReadFile (catalog_path category)) w).
Proof.
  intros H. unfold loadProducts, try_catch, bind, readFile. rewrite H. reflexivity.
Qed.

Lemma load_faulty (w : World) (category code : string) :
  disk w !! catalog_path category = Some (Faulty code) ->
  code <> "ENOENT" ->
  load category w
  = (Throw (SystemError code), record_event (EvReadFile (catalog_path category)) w).
Proof.
  intros H Hc. unfold loadProducts, try_catch, bind, readFile. rewrite H.
  cbn [error_code]. destruct (decide (Some code = Some "ENOENT")) as [[= E]|_].
  - contradiction.
  - reflexivity.
Qed.

Lemma load_reports_no_entry (w : World) (category : string) :
  disk w !! catalog_path category = Some (Faulty "ENOENT") ->
  load category w = (Ret (VArr []), record_event (EvReadFile (catalog_path category)) w).
Proof.
  intros H. unfold loadProducts, try_catch, bind, readFile. rewrite H. reflexivity.
Qed.

Lemma load_catalog (w : World) (category : string) (objs : list (gmap string value)) :
  holds_catalog w (catalog_path category) objs ->
  load category w
  = (Ret (VArr (VObj <$> objs)), record_event (EvReadFile (catalog_path category)) w).
Proof.
  intros [H|[H ->]].
  - by apply load_json.
  - by apply load_absent.
Qed.

Lemma save_writes (w : World) (category : string) (products : list value) :
  (forall code, disk w !! catalog_path category <> Some (Faulty code)) ->
  save category products w
  = (Ret tt,
     set_disk (<[catalog_path category := File (Json (VArr products))]> (disk w))
       (record_event (EvWriteFile (catalog_path category) (Json (VArr products))) w)).
Proof.
  intros H. unfold saveProducts, writeFile, JSON_stringify.
  destruct (disk w !! catalog_path category) as [[t|code]|] eqn:E; try reflexivity.
  exfalso. by apply (H code).
Qed.

Lemma holds_catalog_writable (w : World) (category : string)
    (objs : list (gmap string value)) :
  holds_catalog w (catalog_path category) objs ->
  forall code, disk w !! catalog_path category <> Some (Faulty code).
Proof. intros [H|[H _]] code; rewrite H; discriminate. Qed.

(** ** Update of an identifier that is not in the catalog (C5) *)

(** C5.  When no record of the catalog carries the identifier the path
    parameter parses to, the update handler answers 404 "Product not
    found"; all it does is read the catalog file: the disk is unchanged and
    no [writeFile] is issued.  The parameter parses to a safe integer (or
    to [NaN]): then the number JavaScript reads from it is that integer,
    and no record carries it. *)
Theorem update_missing_id_not_found
    (w : World) (category id : string) (reqBody : gmap string value) (now : string)
    (objs : list (gmap string value)) :
  holds_catalog w (catalog_path category) objs ->
  (forall o n, o ∈ objs -> parseInt id = Some n -> o !! "id" <> Some (VNum n)) ->
  (forall n, parseInt id = Some n -> safe_integer n) ->
  exists w',
    updateProduct dirname path_join category id reqBody now w
    = (Ret (error_response 404 "Product not found"), w')
    /\ disk w' = disk w
    /\ trace w' = (trace w ++ [EvReadFile (catalog_path category)])%list
    /\ (forall path t, EvWriteFile path t ∈ trace w' -> EvWriteFile path t ∈ trace w).
Proof.
  intros Hcat Hmiss _.
  exists (record_event (EvReadFile (catalog_path category)) w).
  split; [|split; [reflexivity|split; [reflexivity|]]].
  - unfold updateProduct. erewrite try_catch_Ret; [reflexivity|].
    step_with (load_catalog w category objs Hcat). step.
    assert (Hidx : findIndex (VObj <$> objs) (parseInt id) = Ret None).
    { unfold findIndex. destruct (parseInt id) as [n|].
      - apply findIndex_from_absent. intros o Ho. by apply Hmiss.
      - apply findIndex_from_NaN. }
    erewrite bind_Ret; [| unfold lift; rewrite Hidx; reflexivity ].
    reflexivity.
  - intros path t Hin. cbn [record_event trace] in Hin.
    apply elem_of_app in Hin as [Hin|Hin]; [exact Hin|].
    apply list_elem_of_singleton in Hin. discriminate.
Qed.

(** ** Loading a catalog (C7) *)

(** A handler whose load throws logs the error and answers 500. *)
Lemma list_load_throws (w w1 : World) (category : string) (e : exn) :
  load category w = (Throw e, w1) ->
  listProducts dirname path_join category w
  = (Ret (error_response 500 "Failed to load products"),
     record_event (EvConsoleError "Error loading products:" e) w1).
Proof.
  intros H. unfold listProducts.
  erewrite try_catch_Throw; [reflexivity|]. by erewrite bind_Throw.
Qed.

Lemma get_load_throws (w w1 : World) (category id : string) (e : exn) :
  load category w = (Throw e, w1) ->
  getProduct dirname path_join category id w
  = (Ret (error_response 500 "Failed to load product"),
     record_event (EvConsoleError "Error loading product:" e) w1).
Proof.
  intros H. unfold getProduct.
  erewrite try_catch_Throw; [reflexivity|]. by erewrite bind_Throw.
Qed.

Lemma create_load_throws (w w1 : World) (category : string)
    (reqBody : gmap string value) (now1 now2 : string) (e : exn) :
  load category w = (Throw e, w1) ->
  createProduct dirname path_join category reqBody now1 now2 w
  = (Ret (error_response 500 "Failed to create product"),
     record_event (EvConsoleError "Error creating product:" e) w1).
Proof.
  intros H. unfold createProduct.
  erewrite try_catch_Throw; [reflexivity|]. by erewrite bind_Throw.
Qed.

Lemma update_load_throws (w w1 : World) (category id : string)
    (reqBody : gmap string value) (now : string) (e : exn) :
  load category w = (Throw e, w1) ->
  updateProduct dirname path_join category id reqBody now w
  = (Ret (error_response 500 "Failed to update product"),
     record_event (EvConsoleError "Error updating product:" e) w1).
Proof.
  intros H. unfold updateProduct.
  erewrite try_catch_Throw; [reflexivity|]. by erewrite bind_Throw.
Qed.

Lemma delete_load_throws (w w1 : World) (category id : string) (e : exn) :
  load category w = (Throw e, w1) ->
  deleteProduct dirname path_join category id w
  = (Ret (error_response 500 "Failed to delete product"),
     record_event (EvConsoleError "Error deleting product:" e) w1).
Proof.
  intros H. unfold deleteProduct.
  erewrite try_catch_Throw; [reflexivity|]. by erewrite bind_Throw.
Qed.

Lemma load_throws_all_routes (w : World) (category : string) (e : exn) :
  load category w = (Throw e, record_event (EvReadFile (catalog_path category)) w) ->
  all_routes_answer_500 dirname path_join w category e.
Proof.
  intros H. unfold all_routes_answer_500. cbv zeta. repeat split; intros.
  - by apply list_load_throws.
  - by apply get_load_throws.
  - by apply create_load_throws.
  - by apply update_load_throws.
  - by apply delete_load_throws.
Qed.

(** C7.  [loadProducts] reads the one file
    [path.join(path.join(__dirname, 'data'), `products_${category}.json`)]
    and touches nothing else.  When that file does not exist it returns
    the empty array, and the list route answers 200 with the empty array.
    When reading fails with any other error code, or the text of the file
    is not JSON, it throws that error, and every product route answers
    500. *)
Theorem load_absent_is_empty_other_failures_500 (w : World) (category : string) :
  catalog_path category
    = path_join (path_join dirname "data") ("products_" +:+ category +:+ ".json")
  /\ snd (load category w) = record_event (EvReadFile (catalog_path category)) w
  /\ (disk w !! catalog_path category = None ->
      fst (load category w) = Ret (VArr [])
      /\ fst (listProducts dirname path_join category w)
         = Ret {| status := 200; body := VArr [] |})
  /\ (forall code,
        disk w !! catalog_path category = Some (Faulty code) ->
        code <> "ENOENT" ->
        fst (load category w) = Throw (SystemError code)
        /\ all_routes_answer_500 dirname path_join w category (SystemError code))
  /\ (forall s,
        disk w !! catalog_path category = Some (File (Malformed s)) ->
        fst (load category w) = Throw SyntaxError
        /\ all_routes_answer_500 dirname path_join w category SyntaxError).
Proof.
  split; [reflexivity|]. split; [|split; [|split]].
  - unfold loadProducts, try_catch, bind, readFile.
    destruct (disk w !! catalog_path category) as [[[v|s]|code]|]; cbn; try reflexivity.
    destruct (decide (Some code = Some "ENOENT")); reflexivity.
  - intros H. split.
    + by rewrite (load_absent w category H).
    + unfold listProducts. erewrite try_catch_Ret; [reflexivity|].
      step_with (load_absent w category H). reflexivity.
  - intros code H Hc. pose proof (load_faulty w category code H Hc) as Hl. split.
    + by rewrite Hl.
    + by apply load_throws_all_routes.
  - intros s H. pose proof (load_malformed w category s H) as Hl. split.
    + by rewrite Hl.
    + by apply load_throws_all_routes.
Qed.

(** ** Update of an existing record (C4) *)



(** ** Delete (C6) *)

Lemma truthy_string (s : string) : s <> "" -> truthy (Some (VStr s)) = true.
Proof.
  intros H. cbn. destruct (String.eqb_spec s ""); [contradiction|reflexivity].
Qed.

(** The clean-up of one field never throws; it removes at most the file
    the field names; it calls [unlink] when the field is an upload URL and
    logs when that call fails. *)
Lemma removeUpload_returns (old : gmap string value) (f msg : string) (w : World) :
  upload_field old f ->
  exists w1,
    removeUpload dirname path_join (VObj old) f msg w = (Ret tt, w1)
    /\ (forall q, disk w1 !! q = disk w !! q \/ disk w1 !! q = None)
    /\ (forall ev, ev ∈ trace w -> ev ∈ trace w1)
    /\ (forall s, upload_url old f s ->
          EvUnlink (path_join dirname s) ∈ trace w1
          /\ ((forall t, disk w !! path_join dirname s <> Some (File t)) ->
              exists e, EvConsoleError msg e ∈ trace w1))
    /\ ((forall s, ~ upload_url old f s) -> w1 = w).
Proof.
  intros Hf. unfold removeUpload. cbn [get_prop lift bind].
  destruct (truthy (old !! f)) eqn:Ht.
  - destruct (Hf Ht) as [s Hs]. rewrite Hs. cbn [startsWith lift bind].
    destruct (String.prefix "/uploads/" s) eqn:Hp.
    + unfold try_catch, unlink.
      destruct (disk w !! path_join dirname s) as [[t|code]|] eqn:Hd.
      * eexists. split; [reflexivity|]. cbn [set_disk record_event disk trace].
        split; [|split; [|split]].
        -- intros q. destruct (decide (q = path_join dirname s)) as [->|Hq].
           ++ right. apply lookup_delete_eq.
           ++ left. by apply lookup_delete_ne.
        -- intros ev Hev. apply elem_of_app. by left.
        -- intros s' (Hs' & _ & _). rewrite Hs in Hs'. injection Hs' as <-. split.
           ++ apply elem_of_app. right. by apply list_elem_of_singleton.
           ++ intros Hno. exfalso. by apply (Hno t).
        -- intros Hno. exfalso. apply (Hno s). split; [exact Hs|]. split; [|exact Hp].
           intros ->. rewrite Hs in Ht. discriminate.
      * eexists. split; [reflexivity|]. cbn [console_error record_event disk trace].
        split; [|split; [|split]].
        -- intros q. by left.
        -- intros ev Hev. apply elem_of_app. left. apply elem_of_app. by left.
        -- intros s' (Hs' & _ & _). rewrite Hs in Hs'. injection Hs' as <-. split.
           ++ apply elem_of_app. left. apply elem_of_app. right.
              by apply list_elem_of_singleton.
           ++ intros _. eexists. apply elem_of_app. right.
              by apply list_elem_of_singleton.
        -- intros Hno. exfalso. apply (Hno s). split; [exact Hs|]. split; [|exact Hp].
           intros ->. rewrite Hs in Ht. discriminate.
      * eexists. split; [reflexivity|]. cbn [console_error record_event disk trace].
        split; [|split; [|split]].
        -- intros q. by left.
        -- intros ev Hev. apply elem_of_app. left. apply elem_of_app. by left.
        -- intros s' (Hs' & _ & _). rewrite Hs in Hs'. injection Hs' as <-. split.
           ++ apply elem_of_app. left. apply elem_of_app. right.
              by apply list_elem_of_singleton.
           ++ intros _. eexists. apply elem_of_app. right.
              by apply list_elem_of_singleton.
        -- intros Hno. exfalso. apply (Hno s). split; [exact Hs|]. split; [|exact Hp].
           intros ->. rewrite Hs in Ht. discriminate.
    + exists w. split; [reflexivity|]. split; [by left|]. split; [done|]. split; [|done].
      intros s' (Hs' & _ & Hp'). rewrite Hs in Hs'. injection Hs' as <-. congruence.
  - exists w. split; [reflexivity|]. split; [by left|]. split; [done|]. split; [|done].
    intros s' (Hs' & Hne & _). rewrite Hs', (truthy_string s' Hne) in Ht. discriminate.
Qed.

(** The records left after the removal of position [i] come from the other
    positions. *)
Lemma delete_elem_from_other {A : Type} (l : list A) (i : nat) (x : A) :
  x ∈ delete i l -> exists j, j <> i /\ l !! j = Some x.
Proof.
  intros Hin. apply list_elem_of_lookup in Hin as [j Hj].
  destruct (decide (j < i)%nat) as [Hlt|Hge].
  - exists j. split; [lia|]. by rewrite list_lookup_delete_lt in Hj.
  - exists (S j). split; [lia|]. rewrite list_lookup_delete_ge in Hj by lia. exact Hj.
Qed.

(** C6, as the code has it.  Let exactly one record of the catalog carry
    the identifier of the path parameter, and let its [image] and
    [audioFile] fields be absent, falsy or strings.  Then the delete
    handler answers 200 with the confirmation message; the file is
    rewritten without that record, so that no record of the saved catalog
    carries the identifier and a following get of the same identifier
    answers 404.  For each of the two fields that is an upload URL,
    [unlink] is called on its file, and when there is no such file to
    remove the failure is logged; the answer is the same either way. *)
Theorem delete_removes_the_only_record
    (w : World) (category id : string) (objs : list (gmap string value))
    (n : Z) (i : nat) (old : gmap string value) :
  holds_catalog w (catalog_path category) objs ->
  parseInt id = Some n ->
  objs !! i = Some old ->
  (forall j o, objs !! j = Some o -> o !! "id" = Some (VNum n) <-> j = i) ->
  upload_field old "image" ->
  upload_field old "audioFile" ->
  exists w',
    deleteProduct dirname path_join category id w
    = (Ret {| status := 200;
              body := VObj (obj [("message", VStr "Product deleted successfully")]) |},
       w')
    /\ disk w' !! catalog_path category
       = Some (File (Json (VArr (VObj <$> delete i objs))))
    /\ (forall o, o ∈ delete i objs -> o !! "id" <> Some (VNum n))
    /\ fst (getProduct dirname path_join category id w')
       = Ret (error_response 404 "Product not found")
    /\ (forall s, upload_url old "image" s ->
          EvUnlink (path_join dirname s) ∈ trace w'
          /\ ((forall t, disk w !! path_join dirname s <> Some (File t)) ->
              exists e, EvConsoleError "Error deleting image file:" e ∈ trace w'))
    /\ (forall s, upload_url old "audioFile" s ->
          EvUnlink (path_join dirname s) ∈ trace w'
          /\ ((forall t, disk w !! path_join dirname s <> Some (File t)) ->
              exists e, EvConsoleError "Error deleting audio file:" e ∈ trace w')).
Proof.
  intros Hcat Hid Hi Honly Himg Haud.
  assert (Hold : old !! "id" = Some (VNum n)) by (by apply (Honly i old Hi)).
  assert (Hfirst : first_with_id n objs i old).
  { split; [exact Hi|]. split; [exact Hold|].
    intros j o' Hj Hl Ho'. apply (Honly j o' Hl) in Ho'. lia. }
  set (w0 := record_event (EvReadFile (catalog_path category)) w).
  destruct (removeUpload_returns old "image" "Error deleting image file:" w0 Himg)
    as (w1 & Hrun1 & Hdisk1 & Htrace1 & Hurl1 & _).
  destruct (removeUpload_returns old "audioFile" "Error deleting audio file:" w1 Haud)
    as (w2 & Hrun2 & Hdisk2 & Htrace2 & Hurl2 & _).
  assert (Hwritable : forall code, disk w2 !! catalog_path category <> Some (Faulty code)).
  { intros code. pose proof (holds_catalog_writable w category objs Hcat code) as Hw.
    destruct (Hdisk2 (catalog_path category)) as [E2|E2]; rewrite E2; [|discriminate].
    destruct (Hdisk1 (catalog_path category)) as [E1|E1]; rewrite E1; [|discriminate].
    exact Hw. }
  set (saved := VObj <$> delete i objs).
  set (w3 := set_disk (<[catalog_path category := File (Json (VArr saved))]> (disk w2))
               (record_event (EvWriteFile (catalog_path category) (Json (VArr saved))) w2)).
  assert (Hremaining : forall o, o ∈ delete i objs -> o !! "id" <> Some (VNum n)).
  { intros o Ho Hn. apply delete_elem_from_other in Ho as (j & Hj & Hl).
    apply (Honly j o Hl) in Hn. contradiction. }
  assert (Hsaved : disk w3 !! catalog_path category = Some (File (Json (VArr saved)))).
  { unfold w3. cbn [set_disk disk]. apply lookup_insert_eq. }
  exists w3. split; [|split; [exact Hsaved|split; [exact Hremaining|split; [|split]]]].
  - unfold deleteProduct. erewrite try_catch_Ret; [reflexivity|].
    step_with (load_catalog w category objs Hcat). step.
    erewrite bind_Ret;
      [| unfold lift; rewrite Hid, (findIndex_first n objs i old Hfirst); reflexivity ].
    cbv beta iota. rewrite list_lookup_fmap, Hi.
    cbn [fmap option_fmap option_map default].
    erewrite bind_Ret; [| exact Hrun1 ].
    erewrite bind_Ret; [| exact Hrun2 ].
    erewrite bind_Ret; [reflexivity|].
    rewrite <- list_fmap_delete. by apply save_writes.
  - assert (Hcat3 : holds_catalog w3 (catalog_path category) (delete i objs)) by (left; exact Hsaved).
    unfold getProduct. erewrite try_catch_Ret; [reflexivity|].
    step_with (load_catalog w3 category (delete i objs) Hcat3). step.
    erewrite bind_Ret;
      [| unfold lift; rewrite Hid, (find_absent n (delete i objs) Hremaining); reflexivity ].
    reflexivity.
  - intros s Hs. destruct (Hurl1 s Hs) as [Hun Hlog]. split.
    + unfold w3. cbn [set_disk record_event trace]. apply elem_of_app. left. by apply Htrace2.
    + intros Hno. destruct (Hlog Hno) as [e He]. exists e.
      unfold w3. cbn [set_disk record_event trace]. apply elem_of_app. left.
      by apply Htrace2.
  - intros s Hs. destruct (Hurl2 s Hs) as [Hun Hlog]. split.
    + unfold w3. cbn [set_disk record_event trace]. apply elem_of_app. by left.
    + intros Hno.
      assert (Hno1 : forall t, disk w1 !! path_join dirname s <> Some (File t)).
      { intros t. destruct (Hdisk1 (path_join dirname s)) as [E|E]; rewrite E.
        - apply Hno.
        - discriminate. }
      destruct (Hlog Hno1) as [e He]. exists e.
      unfold w3. cbn [set_disk record_event trace]. apply elem_of_app. by left.
Qed.

(** ** Create *)

(** The create handler on a catalog whose new identifier is [n]. *)
Lemma create_runs (w : World) (category : string) (reqBody : gmap string value)
    (now1 now2 : string) (objs : list (gmap string value)) (n : Z) :
  holds_catalog w (catalog_path category) objs ->
  newId (VObj <$> objs) = Ret n ->
  let product := created_record n reqBody now1 now2 in
  let saved := Json (VArr (VObj <$> (objs ++ [product])%list)) in
  createProduct dirname path_join category reqBody now1 now2 w
  = (Ret {| status := 201; body := VObj product |},
     set_disk (<[catalog_path category := File saved]> (disk w))
       (record_event (EvWriteFile (catalog_path category) saved)
          (record_event (EvReadFile (catalog_path category)) w))).
Proof.
  intros Hcat Hn product saved. unfold createProduct.
  erewrite try_catch_Ret; [reflexivity|].
  step_with (load_catalog w category objs Hcat). step.
  erewrite bind_Ret; [| unfold lift; rewrite Hn; reflexivity ].
  erewrite bind_Ret;
    [| apply save_writes; intros code; cbn [record_event disk];
       by apply (holds_catalog_writable w category objs) ].
  unfold saved. rewrite fmap_app. reflexivity.
Qed.


Lemma created_record_id_assigned (n : Z) (reqBody : gmap string value)
    (now1 now2 : string) :
  reqBody !! "id" = None ->
  created_record n reqBody now1 now2 !! "id" = Some (VNum n).
Proof.
  intros H. unfold created_record.
  rewrite lookup_insert_ne by discriminate.
  rewrite lookup_insert_ne by discriminate.
  rewrite lookup_union_r by exact H. apply lookup_singleton_eq.
Qed.

(** A body without reserved keys: the record is the body extended with
    the three service fields. *)
Lemma created_record_extends (n : Z) (reqBody : gmap string value)
    (now1 now2 : string) :
  reqBody !! "id" = None ->
  created_record n reqBody now1 now2
  = <["id" := VNum n]>
      (<["createdAt" := VStr now1]> (<["updatedAt" := VStr now2]> reqBody)).
Proof.
  intros H. unfold created_record.
  rewrite <- (insert_union_singleton_r reqBody "id" (VNum n) H).
  rewrite (insert_insert_ne _ "id" "createdAt") by discriminate.
  rewrite (insert_insert_ne _ "id" "updatedAt") by discriminate.
  rewrite (insert_insert_ne _ "createdAt" "updatedAt") by discriminate.
  reflexivity.
Qed.

(** Create on a catalog of records with plain identifiers: it answers 201
    with the new record, and the catalog afterwards is the old one with
    the new record appended. *)
Lemma create_appends (w : World) (category : string) (reqBody : gmap string value)
    (now1 now2 : string) (objs : list (gmap string value)) :
  holds_catalog w (catalog_path category) objs ->
  Forall plain_id objs ->
  exists (n : Z) (w1 : World),
    newId (VObj <$> objs) = Ret n
    /\ (forall o, o ∈ objs -> o !! "id" <> Some (VNum n))
    /\ createProduct dirname path_join category reqBody now1 now2 w
       = (Ret {| status := 201; body := VObj (created_record n reqBody now1 now2) |}, w1)
    /\ holds_catalog w1 (catalog_path category) (objs ++ [created_record n reqBody now1 now2]).
Proof.
  intros Hcat Hplain.
  destruct (newId_fresh objs Hplain) as (n & Hn & Hfresh).
  exists n. eexists. split; [exact Hn|]. split; [exact Hfresh|]. split.
  - by apply (create_runs w category reqBody now1 now2 objs n).
  - left. cbn [set_disk disk]. apply lookup_insert_eq.
Qed.


(** ** Round trip of create and get (C9) *)


(** ** Assignment of identifiers (C3) *)

Lemma created_record_plain (n : Z) (reqBody : gmap string value) (now1 now2 : string) :
  reqBody !! "id" = None ->
  plain_id (created_record n reqBody now1 now2)
  /\ id_or_zero (created_record n reqBody now1 now2) = n.
Proof.
  intros H. pose proof (created_record_id_assigned n reqBody now1 now2 H) as E.
  split; [right; eauto|]. unfold id_or_zero. by rewrite E.
Qed.

(** C3.  The new identifier is 1 on the empty catalog and, on a catalog of
    at most [spread_limit] records whose identifiers are safe integers (or
    absent, counted as 0), one more than the greatest of them, which is
    the maximum of the identifiers and 0 when none is negative, and which
    is at most 2^53, hence exact; the create handler gives that identifier
    to a record whose body has no [id]; and three creations into a catalog
    with no file yet, from bodies without [id], answer with the
    identifiers 1, 2 and 3. *)
Theorem create_assigns_max_plus_one :
  newId [] = Ret 1
  /\ (forall objs : list (gmap string value),
        Forall plain_id objs -> Forall safe_id objs -> spreadable objs ->
        objs <> [] ->
        exists m, newId (VObj <$> objs) = Ret (m + 1)
                  /\ m ∈ id_or_zero <$> objs
                  /\ (forall o, o ∈ objs -> id_or_zero o <= m)
                  /\ - 2 ^ 53 < m + 1 <= 2 ^ 53)
  /\ (forall objs : list (gmap string value),
        Forall plain_id objs -> Forall safe_id objs -> spreadable objs ->
        Forall (fun o => 0 <= id_or_zero o) objs ->
        newId (VObj <$> objs) = Ret (foldr Z.max 0 (id_or_zero <$> objs) + 1))
  /\ (forall (w : World) (category : string) (reqBody : gmap string value)
        (now1 now2 : string) (objs : list (gmap string value)),
        holds_catalog w (catalog_path category) objs ->
        Forall plain_id objs -> Forall safe_id objs -> spreadable objs ->
        reqBody !! "id" = None ->
        exists n product w1,
          newId (VObj <$> objs) = Ret n
          /\ - 2 ^ 53 < n <= 2 ^ 53
          /\ createProduct dirname path_join category reqBody now1 now2 w
             = (Ret {| status := 201; body := VObj product |}, w1)
          /\ product !! "id" = Some (VNum n))
  /\ (forall (w : World) (category : string) (b1 b2 b3 : gmap string value)
        (t1 t1' t2 t2' t3 t3' : string),
        disk w !! catalog_path category = None ->
        b1 !! "id" = None -> b2 !! "id" = None -> b3 !! "id" = None ->
        exists p1 p2 p3 w1 w2 w3,
          createProduct dirname path_join category b1 t1 t1' w
          = (Ret {| status := 201; body := VObj p1 |}, w1)
          /\ createProduct dirname path_join category b2 t2 t2' w1
             = (Ret {| status := 201; body := VObj p2 |}, w2)
          /\ createProduct dirname path_join category b3 t3 t3' w2
             = (Ret {| status := 201; body := VObj p3 |}, w3)
          /\ p1 !! "id" = Some (VNum 1)
          /\ p2 !! "id" = Some (VNum 2)
          /\ p3 !! "id" = Some (VNum 3)
          /\ holds_catalog w3 (catalog_path category) [p1; p2; p3]).
Proof.
  split; [reflexivity|]. split; [|split; [|split]].
  - intros [|a objs] Hplain Hsafe _ Hne; [contradiction|].
    exists (Math_max (id_or_zero a) (id_or_zero <$> objs)).
    split; [by apply newId_plain|]. split; [|split].
    + rewrite fmap_cons. apply Math_max_in.
    + intros o Ho. apply Math_max_ge. rewrite <- fmap_cons.
      by apply list_elem_of_fmap_2.
    + pose proof (newId_below (a :: objs) (2 ^ 53) _ Hplain Hsafe ltac:(lia)
                    (newId_plain a objs Hplain)). lia.
  - intros [|a objs] Hplain _ _ Hpos; [reflexivity|].
    rewrite (newId_plain a objs Hplain). do 2 f_equal.
    apply Forall_cons in Hpos as [Ha Hobjs]. rewrite fmap_cons.
    apply Math_max_nonneg; [exact Ha|].
    apply Forall_fmap. exact Hobjs.
  - intros w category reqBody now1 now2 objs Hcat Hplain Hsafe _ Hid.
    destruct (create_appends w category reqBody now1 now2 objs Hcat Hplain)
      as (n & w1 & Hn & _ & Hrun & _).
    exists n, (created_record n reqBody now1 now2), w1.
    split; [exact Hn|]. split.
    { pose proof (newId_below objs (2 ^ 53) n Hplain Hsafe ltac:(lia) Hn). lia. }
    split; [exact Hrun|]. by apply created_record_id_assigned.
  - intros w category b1 b2 b3 t1 t1' t2 t2' t3 t3' Hnone H1 H2 H3.
    assert (Hcat0 : holds_catalog w (catalog_path category) []) by (by right).
    destruct (create_appends w category b1 t1 t1' [] Hcat0 (List.Forall_nil _))
      as (n1 & w1 & Hn1 & _ & Hrun1 & Hcat1).
    injection Hn1 as <-. cbn [app] in Hcat1.
    destruct (created_record_plain 1 b1 t1 t1' H1) as [Hp1 Hz1].
    set (p1 := created_record 1 b1 t1 t1') in *.
    assert (Hplain1 : Forall plain_id [p1]).
    { apply List.Forall_cons; [exact Hp1|apply List.Forall_nil]. }
    assert (Hnext1 : newId (VObj <$> [p1]) = Ret 2).
    { rewrite (newId_plain p1 [] Hplain1), Hz1. reflexivity. }
    destruct (create_appends w1 category b2 t2 t2' [p1] Hcat1 Hplain1)
      as (n2 & w2 & Hn2 & _ & Hrun2 & Hcat2).
    rewrite Hnext1 in Hn2. injection Hn2 as <-. cbn [app] in Hcat2.
    destruct (created_record_plain 2 b2 t2 t2' H2) as [Hp2 Hz2].
    set (p2 := created_record 2 b2 t2 t2') in *.
    assert (Hplain2 : Forall plain_id [p1; p2]).
    { apply List.Forall_cons; [exact Hp1|].
      apply List.Forall_cons; [exact Hp2|apply List.Forall_nil]. }
    assert (Hnext2 : newId (VObj <$> [p1; p2]) = Ret 3).
    { rewrite (newId_plain p1 [p2] Hplain2). cbn [fmap list_fmap].
      rewrite Hz1, Hz2. reflexivity. }
    destruct (create_appends w2 category b3 t3 t3' [p1; p2] Hcat2 Hplain2)
      as (n3 & w3 & Hn3 & _ & Hrun3 & Hcat3).
    rewrite Hnext2 in Hn3. injection Hn3 as <-. cbn [app] in Hcat3.
    exists p1, p2, (created_record 3 b3 t3 t3'), w1, w2, w3.
    split; [exact Hrun1|]. split; [exact Hrun2|]. split; [exact Hrun3|].
    split; [by apply created_record_id_assigned|].
    split; [by apply created_record_id_assigned|].
    split; [by apply created_record_id_assigned|]. exact Hcat3.
Qed.

(** ** The [id] path parameter (C10) *)

(** C10, as the code has it.  The three routes with an [id] parameter
    compare stored identifiers with [parseInt(id)].  When [parseInt] gives
    [NaN] nothing matches and each route answers 404, never a parse error;
    that is so for every string that begins with a character other than
    white space, a sign or a decimal digit.  When [parseInt] gives a
    number, the first record carrying that number is the one found,
    whatever follows the digits in the string. *)
Theorem id_parameter_is_read_by_parseInt
    (w : World) (category id : string) (objs : list (gmap string value)) :
  holds_catalog w (catalog_path category) objs ->
  (parseInt id = None ->
     fst (getProduct dirname path_join category id w)
     = Ret (error_response 404 "Product not found")
     /\ (forall reqBody now,
           fst (updateProduct dirname path_join category id reqBody now w)
           = Ret (error_response 404 "Product not found"))
     /\ fst (deleteProduct dirname path_join category id w)
        = Ret (error_response 404 "Product not found"))
  /\ (forall c rest,
        id = String c rest ->
        is_white_space c = false ->
        c <> "-"%char -> c <> "+"%char ->
        (forall d, digit_value c = Some d -> 10 <= d) ->
        parseInt id = None)
  /\ (forall n i o,
        parseInt id = Some n ->
        first_with_id n objs i o ->
        fst (getProduct dirname path_join category id w)
        = Ret {| status := 200; body := VObj o |}).
Proof.
  intros Hcat. split; [|split].
  - intros Hnan. split; [|split].
    + unfold getProduct. erewrite try_catch_Ret; [reflexivity|].
      step_with (load_catalog w category objs Hcat). step.
      erewrite bind_Ret; [| unfold lift; rewrite Hnan, find_NaN; reflexivity ].
      reflexivity.
    + intros reqBody now. unfold updateProduct.
      erewrite try_catch_Ret; [reflexivity|].
      step_with (load_catalog w category objs Hcat). step.
      erewrite bind_Ret;
        [| unfold lift, findIndex; rewrite Hnan, findIndex_from_NaN; reflexivity ].
      reflexivity.
    + unfold deleteProduct. erewrite try_catch_Ret; [reflexivity|].
      step_with (load_catalog w category objs Hcat). step.
      erewrite bind_Ret;
        [| unfold lift, findIndex; rewrite Hnan, findIndex_from_NaN; reflexivity ].
      reflexivity.
  - intros c rest -> Hws Hminus Hplus Hdigit.
    by apply parseInt_NaN_first_char.
  - intros n i o Hparse Hfirst. unfold getProduct.
    erewrite try_catch_Ret; [reflexivity|].
    step_with (load_catalog w category objs Hcat). step.
    erewrite bind_Ret;
      [| unfold lift; rewrite Hparse, (find_first n objs i o Hfirst); reflexivity ].
    reflexivity.
Qed.

(** ** The catalog after a request *)

(** A scan of a catalog of objects never throws: it finds nothing, or the
    first record that carries the number looked for. *)
Lemma findIndex_cases (objs : list (gmap string value)) (n : option Z) :
  findIndex (VObj <$> objs) n = Ret None
  \/ exists m i old,
       n = Some m /\ first_with_id m objs i old
       /\ findIndex (VObj <$> objs) n = Ret (Some i).
Proof.
  destruct n as [m|]; [|left; apply findIndex_from_NaN].
  destruct (decide (Exists (fun o => has_id m o = true) objs)) as [Hex|Hno].
  - right. apply Exists_exists in Hex as (o & Ho & Hid).
    destruct (first_with_id_exists m objs) as (i & old & Hfirst).
    { exists o. split; [exact Ho|]. by apply has_id_true. }
    exists m, i, old. split; [reflexivity|]. split; [exact Hfirst|].
    by apply (findIndex_first m objs i old).
  - left. apply findIndex_from_absent. intros o Ho Hid. apply Hno.
    apply Exists_exists. exists o. split; [exact Ho|]. by apply has_id_true.
Qed.

(** The update handler when the scan finds nothing. *)
Lemma update_not_found (w : World) (category id : string)
    (reqBody : gmap string value) (now : string) (objs : list (gmap string value)) :
  holds_catalog w (catalog_path category) objs ->
  findIndex (VObj <$> objs) (parseInt id) = Ret None ->
  updateProduct dirname path_join category id reqBody now w
  = (Ret (error_response 404 "Product not found"),
     record_event (EvReadFile (catalog_path category)) w).
Proof.
  intros Hcat Hidx. unfold updateProduct. erewrite try_catch_Ret; [reflexivity|].
  step_with (load_catalog w category objs Hcat). step.
  erewrite bind_Ret; [| unfold lift; rewrite Hidx; reflexivity ].
  reflexivity.
Qed.

(** The update handler when the scan finds the record [old] at [i]. *)
Lemma update_found (w : World) (category id : string)
    (reqBody : gmap string value) (now : string) (objs : list (gmap string value))
    (n : Z) (i : nat) (old : gmap string value) :
  holds_catalog w (catalog_path category) objs ->
  parseInt id = Some n ->
  first_with_id n objs i old ->
  let updated := updated_record (VObj old) reqBody (Some n) now in
  let saved := Json (VArr (VObj <$> <[i := updated]> objs)) in
  updateProduct dirname path_join category id reqBody now w
  = (Ret {| status := 200; body := VObj updated |},
     set_disk (<[catalog_path category := File saved]> (disk w))
       (record_event (EvWriteFile (catalog_path category) saved)
          (record_event (EvReadFile (catalog_path category)) w))).
Proof.
  intros Hcat Hid Hfirst updated saved. pose proof Hfirst as (Hi & _ & _).
  unfold updateProduct. erewrite try_catch_Ret; [reflexivity|].
  step_with (load_catalog w category objs Hcat). step.
  erewrite bind_Ret;
    [| unfold lift; rewrite Hid, (findIndex_first n objs i old Hfirst); reflexivity ].
  cbv beta iota. rewrite list_lookup_fmap, Hi.
  cbn [fmap option_fmap option_map default]. rewrite Hid. fold updated.
  erewrite bind_Ret;
    [| apply save_writes; intros code; cbn [record_event disk];
       by apply (holds_catalog_writable w category objs) ].
  unfold saved. rewrite list_fmap_insert. reflexivity.
Qed.

(** The clean-up of one field, whatever the field holds: it returns or
    throws a [TypeError], and it removes at most files. *)
Lemma removeUpload_any (old : gmap string value) (f msg : string) (w : World) :
  exists r w1,
    removeUpload dirname path_join (VObj old) f msg w = (r, w1)
    /\ (r = Ret tt \/ r = Throw TypeError)
    /\ (forall q, disk w1 !! q = disk w !! q \/ disk w1 !! q = None).
Proof.
  unfold removeUpload. cbn [get_prop lift bind].
  destruct (truthy (old !! f)) eqn:Ht;
    [|exists (Ret tt), w; split; [reflexivity|]; split; [by left|by left]].
  destruct (old !! f) as [[ |b|z|q|s|l|o]|];
    try (exists (Throw TypeError), w; split; [reflexivity|]; split; [by right|by left]).
  cbn [startsWith lift bind].
  destruct (String.prefix "/uploads/" s);
    [|exists (Ret tt), w; split; [reflexivity|]; split; [by left|by left]].
  unfold try_catch, unlink.
  destruct (disk w !! path_join dirname s) as [[t|code]|] eqn:Hd;
    eexists _, _; (split; [reflexivity|]); (split; [by left|]);
    cbn [console_error set_disk record_event disk]; intros q; try (by left).
  destruct (decide (q = path_join dirname s)) as [->|Hq].
  - right. apply lookup_delete_eq.
  - left. by apply lookup_delete_ne.
Qed.

(** A catalog whose file was at most removed. *)
Lemma holds_catalog_shrunk (w w1 : World) (path : string)
    (objs : list (gmap string value)) :
  holds_catalog w path objs \/ holds_catalog w path [] ->
  (disk w1 !! path = disk w !! path \/ disk w1 !! path = None) ->
  holds_catalog w1 path objs \/ holds_catalog w1 path [].
Proof.
  intros Hcat [E|E].
  - unfold holds_catalog in *. by rewrite E.
  - right. right. by split.
Qed.

Lemma update_catalog_after (w : World) (category id : string)
    (reqBody : gmap string value) (now : string) (objs : list (gmap string value)) :
  holds_catalog w (catalog_path category) objs ->
  exists objs',
    holds_catalog (snd (updateProduct dirname path_join category id reqBody now w))
      (catalog_path category) objs'
    /\ (objs' = objs
        \/ exists n i old,
             first_with_id n objs i old
             /\ objs' = <[i := updated_record (VObj old) reqBody (Some n) now]> objs).
Proof.
  intros Hcat. destruct (findIndex_cases objs (parseInt id))
    as [Hnone|(n & i & old & Hparse & Hfirst & _)].
  - exists objs. rewrite (update_not_found w category id reqBody now objs Hcat Hnone).
    split; [exact Hcat|by left].
  - eexists. rewrite (update_found w category id reqBody now objs n i old Hcat Hparse Hfirst).
    split; [left; cbn [snd set_disk disk]; apply lookup_insert_eq|].
    right. by exists n, i, old.
Qed.

(** The statements of the delete handler after the record was found at
    [i]: they end in the confirmation with the catalog saved without that
    record, or in a [TypeError] before anything was saved. *)
Lemma delete_found_after (w0 : World) (category : string)
    (objs : list (gmap string value)) (i : nat) (old : gmap string value) :
  holds_catalog w0 (catalog_path category) objs ->
  exists r w',
    (removeUpload dirname path_join (VObj old) "image" "Error deleting image file:" ;;
     removeUpload dirname path_join (VObj old) "audioFile" "Error deleting audio file:" ;;
     save category (delete i (VObj <$> objs)) ;;
     ret {| status := 200;
            body := VObj (obj [("message", VStr "Product deleted successfully")]) |}) w0
    = (r, w')
    /\ ((exists resp, r = Ret resp)
          /\ holds_catalog w' (catalog_path category) (delete i objs)
        \/ r = Throw TypeError
           /\ (holds_catalog w' (catalog_path category) objs
               \/ holds_catalog w' (catalog_path category) [])).
Proof.
  intros Hcat0.
  destruct (removeUpload_any old "image" "Error deleting image file:" w0)
    as (r1 & w1 & Hrun1 & Hr1 & Hdisk1).
  pose proof (holds_catalog_shrunk w0 w1 _ objs (or_introl Hcat0) (Hdisk1 _)) as Hcat1.
  destruct Hr1 as [-> | ->];
    [|eexists _, _; split; [by erewrite bind_Throw|right; by split]].
  destruct (removeUpload_any old "audioFile" "Error deleting audio file:" w1)
    as (r2 & w2 & Hrun2 & Hr2 & Hdisk2).
  pose proof (holds_catalog_shrunk w1 w2 _ objs Hcat1 (Hdisk2 _)) as Hcat2.
  erewrite bind_Ret; [| exact Hrun1 ].
  destruct Hr2 as [-> | ->];
    [|eexists _, _; split; [by erewrite bind_Throw|right; by split]].
  erewrite bind_Ret; [| exact Hrun2 ].
  eexists _, _. split.
  - erewrite bind_Ret; [reflexivity|]. apply save_writes.
    destruct Hcat2 as [H|H]; by apply (holds_catalog_writable w2 category _ H).
  - left. split; [eauto|]. left. cbn [set_disk disk].
    rewrite lookup_insert_eq. by rewrite list_fmap_delete.
Qed.

Lemma delete_catalog_after (w : World) (category id : string)
    (objs : list (gmap string value)) :
  holds_catalog w (catalog_path category) objs ->
  exists objs',
    holds_catalog (snd (deleteProduct dirname path_join category id w))
      (catalog_path category) objs'
    /\ (objs' = objs \/ objs' = [] \/ exists i, objs' = delete i objs).
Proof.
  intros Hcat. set (w0 := record_event (EvReadFile (catalog_path category)) w).
  assert (Hcat0 : holds_catalog w0 (catalog_path category) objs) by exact Hcat.
  unfold deleteProduct.
  destruct (findIndex_cases objs (parseInt id))
    as [Hnone|(n & i & old & Hparse & (Hi & _ & _) & Hidx)].
  { exists objs. erewrite try_catch_Ret; [split; [exact Hcat0|by left]|].
    step_with (load_catalog w category objs Hcat). step.
    erewrite bind_Ret; [| unfold lift; rewrite Hnone; reflexivity ].
    reflexivity. }
  destruct (delete_found_after w0 category objs i old Hcat0)
    as (r & w' & Hrun & [[[resp ->] Hcat']|[-> Hcat']]).
  - exists (delete i objs). erewrite try_catch_Ret; [split; [exact Hcat'|eauto]|].
    step_with (load_catalog w category objs Hcat). step.
    erewrite bind_Ret; [| unfold lift; rewrite Hidx; reflexivity ].
    cbv beta iota. rewrite list_lookup_fmap, Hi.
    cbn [fmap option_fmap option_map default]. exact Hrun.
  - assert (Hthrows :
      (let* loaded := load category in
       let* products := lift (array_of loaded) in
       let* index := lift (findIndex products (parseInt id)) in
       match index with
       | None => ret (error_response 404 "Product not found")
       | Some i =>
           let product := default VNull (products !! i) in
           removeUpload dirname path_join product "image" "Error deleting image file:" ;;
           removeUpload dirname path_join product "audioFile" "Error deleting audio file:" ;;
           save category (delete i products) ;;
           ret {| status := 200;
                  body := VObj (obj [("message", VStr "Product deleted successfully")]) |}
       end) w = (Throw TypeError, w')).
    { step_with (load_catalog w category objs Hcat). step.
      erewrite bind_Ret; [| unfold lift; rewrite Hidx; reflexivity ].
      cbv beta iota. rewrite list_lookup_fmap, Hi.
      cbn [fmap option_fmap option_map default]. exact Hrun. }
    erewrite try_catch_Throw; [|exact Hthrows].
    cbn [bind console_error ret snd].
    destruct Hcat' as [H|H]; [exists objs|exists []]; (split; [exact H|eauto]).
Qed.

(** ** Identifiers stay distinct *)

Lemma distinct_ids_plain (objs : list (gmap string value)) :
  distinct_ids objs -> Forall plain_id objs.
Proof.
  intros [Hnum _]. eapply Forall_impl; [exact Hnum|].
  intros o [z Hz]. right. eauto.
Qed.

Lemma id_or_zero_carried (o : gmap string value) (n : Z) :
  o !! "id" = Some (VNum n) -> id_or_zero o = n.
Proof. intros H. unfold id_or_zero. by rewrite H. Qed.

Lemma appended_keeps_distinct (objs : list (gmap string value)) (n : Z)
    (product : gmap string value) :
  distinct_ids objs ->
  (forall o, o ∈ objs -> o !! "id" <> Some (VNum n)) ->
  product !! "id" = Some (VNum n) ->
  distinct_ids (objs ++ [product]).
Proof.
  intros [Hnum Hnodup] Hfresh Hid. split.
  - apply Forall_app. split; [exact Hnum|].
    apply List.Forall_cons; [eauto|apply List.Forall_nil].
  - rewrite fmap_app. apply NoDup_app. split; [exact Hnodup|]. split.
    + intros x Hx Hn. cbn in Hn. apply list_elem_of_singleton in Hn.
      apply list_elem_of_fmap in Hx as (o & -> & Ho).
      rewrite (id_or_zero_carried product n Hid) in Hn.
      rewrite Forall_forall in Hnum. destruct (Hnum o Ho) as [z Hz].
      rewrite (id_or_zero_carried o z Hz) in Hn. subst z.
      by apply (Hfresh o Ho).
    + cbn. apply NoDup_singleton.
Qed.

Lemma replaced_keeps_distinct (objs : list (gmap string value)) (n : Z) (i : nat)
    (old updated : gmap string value) :
  distinct_ids objs ->
  first_with_id n objs i old ->
  updated !! "id" = Some (VNum n) ->
  distinct_ids (<[i := updated]> objs).
Proof.
  intros [Hnum Hnodup] (Hi & Hold & _) Hid. split.
  - apply Forall_insert; [exact Hnum|eauto].
  - rewrite list_fmap_insert, list_insert_id; [exact Hnodup|].
    rewrite list_lookup_fmap, Hi. cbn.
    by rewrite (id_or_zero_carried old n Hold), (id_or_zero_carried updated n Hid).
Qed.

Lemma removed_keeps_distinct (objs : list (gmap string value)) (i : nat) :
  distinct_ids objs -> distinct_ids (delete i objs).
Proof.
  intros [Hnum Hnodup]. split; [by apply Forall_delete|].
  rewrite list_fmap_delete. eapply sublist_NoDup; [exact Hnodup|apply sublist_delete].
Qed.

Lemma empty_is_distinct : distinct_ids [].
Proof. split; [apply List.Forall_nil|apply NoDup_nil_2]. Qed.

Lemma updated_record_id (old : value) (reqBody : gmap string value) (n : Z)
    (now : string) :
  updated_record old reqBody (Some n) now !! "id" = Some (VNum n).
Proof.
  unfold updated_record. rewrite lookup_insert_ne by discriminate.
  apply lookup_insert_eq.
Qed.

Lemma ids_below_weaken (b b' : Z) (objs : list (gmap string value)) :
  b <= b' -> ids_below b objs -> ids_below b' objs.
Proof.
  intros Hb H. eapply Forall_impl; [exact H|]. intros o Ho. cbv beta in *. lia.
Qed.

(** One request keeps the identifiers of the catalog distinct; it raises
    a bound of the identifiers by at most 1 and the length of the catalog
    by at most 1. *)
Lemma handle_keeps_distinct (w : World) (category : string) (r : request)
    (objs : list (gmap string value)) (b : Z) :
  holds_catalog w (catalog_path category) objs ->
  distinct_ids objs ->
  no_id_in_body r ->
  ids_below b objs ->
  1 <= b ->
  exists objs',
    holds_catalog (snd (handle dirname path_join category r w))
      (catalog_path category) objs'
    /\ distinct_ids objs'
    /\ ids_below (b + 1) objs'
    /\ (length objs' <= S (length objs))%nat.
Proof.
  intros Hcat Hdist Hbody Hbelow Hb.
  pose proof (ids_below_weaken b (b + 1) objs ltac:(lia) Hbelow) as Hbelow1.
  destruct r as [reqBody now1 now2|id reqBody now|id]; cbn [handle].
  - destruct (create_appends w category reqBody now1 now2 objs Hcat
                (distinct_ids_plain objs Hdist))
      as (n & w1 & Hn & Hfresh & Hrun & Hcat1).
    rewrite Hrun. eexists. split; [exact Hcat1|]. split; [|split].
    + apply (appended_keeps_distinct objs n); [exact Hdist|exact Hfresh|].
      by apply created_record_id_assigned.
    + apply Forall_app. split; [exact Hbelow1|].
      apply List.Forall_cons; [|apply List.Forall_nil].
      rewrite (proj2 (created_record_plain n reqBody now1 now2 Hbody)).
      exact (newId_below objs b n (distinct_ids_plain objs Hdist) Hbelow Hb Hn).
    + rewrite length_app. cbn. lia.
  - destruct (update_catalog_after w category id reqBody now objs Hcat)
      as (objs' & Hcat' & [->|(n & i & old & Hfirst & ->)]);
      eexists; (split; [exact Hcat'|]);
      [split; [exact Hdist|split; [exact Hbelow1|lia]]|].
    split; [|split].
    + apply (replaced_keeps_distinct objs n i old); [exact Hdist|exact Hfirst|].
      apply updated_record_id.
    + destruct Hfirst as (Hi & Hold & _).
      apply Forall_insert; [exact Hbelow1|].
      rewrite (id_or_zero_carried _ n (updated_record_id _ _ _ _)).
      pose proof (Forall_lookup_1 _ _ _ _ Hbelow1 Hi) as Ho. cbv beta in Ho.
      by rewrite (id_or_zero_carried old n Hold) in Ho.
    + rewrite length_insert. lia.
  - destruct (delete_catalog_after w category id objs Hcat)
      as (objs' & Hcat' & [->|[->|[i ->]]]);
      eexists; (split; [exact Hcat'|]).
    + split; [exact Hdist|split; [exact Hbelow1|lia]].
    + split; [apply empty_is_distinct|split; [apply List.Forall_nil|cbn; lia]].
    + split; [by apply removed_keeps_distinct|].
      split; [by apply Forall_delete|].
      pose proof (sublist_length _ _ (sublist_delete objs i)). lia.
Qed.

(** X1: the invariant of the catalog.  Starting from a catalog whose records
    carry distinct numeric identifiers (no file at all, for one), a
    sequence of creations from bodies without [id], updates and deletions
    leaves a catalog whose records carry distinct numeric identifiers.  The
    identifiers at the start are safe integers with room below 2^53 for one
    new identifier per request, and the catalog has room below
    [spread_limit] for one new record per request: then every identifier
    stays a safe integer and the catalog stays within [spread_limit]
    all along. *)
Theorem ids_stay_distinct (category : string) (rs : list request) (w : World)
    (objs : list (gmap string value)) :
  holds_catalog w (catalog_path category) objs ->
  distinct_ids objs ->
  Forall no_id_in_body rs ->
  ids_below (2 ^ 53 - Z.of_nat (length rs)) objs ->
  Z.of_nat (length objs) + Z.of_nat (length rs) <= spread_limit ->
  exists objs',
    holds_catalog (serve dirname path_join category rs w) (catalog_path category) objs'
    /\ distinct_ids objs'
    /\ Forall safe_id objs'
    /\ spreadable objs'.
Proof.
  intros Hcat Hdist Hbodies Hbelow Hlen.
  assert (Hgen : forall rs w objs b,
    holds_catalog w (catalog_path category) objs ->
    distinct_ids objs ->
    Forall no_id_in_body rs ->
    ids_below b objs ->
    1 <= b ->
    exists objs',
      holds_catalog (serve dirname path_join category rs w) (catalog_path category) objs'
      /\ distinct_ids objs'
      /\ ids_below (b + Z.of_nat (length rs)) objs'
      /\ (length objs' <= length objs + length rs)%nat).
  { clear. induction rs as [|r rs IH]; intros w objs b Hcat Hdist Hbodies Hbelow Hb.
    - exists objs. cbn [serve length]. rewrite Z.add_0_r.
      split; [exact Hcat|]. split; [exact Hdist|]. split; [exact Hbelow|lia].
    - apply Forall_cons in Hbodies as [Hr Hrs].
      destruct (handle_keeps_distinct w category r objs b Hcat Hdist Hr Hbelow Hb)
        as (objs1 & Hcat1 & Hdist1 & Hbelow1 & Hlen1).
      destruct (IH _ objs1 (b + 1) Hcat1 Hdist1 Hrs Hbelow1 ltac:(lia))
        as (objs' & Hcat' & Hdist' & Hbelow' & Hlen').
      exists objs'. cbn [serve length]. split; [exact Hcat'|]. split; [exact Hdist'|].
      split; [|lia]. eapply ids_below_weaken; [|exact Hbelow']. lia. }
  unfold spread_limit in Hlen.
  destruct (Hgen rs w objs (2 ^ 53 - Z.of_nat (length rs)) Hcat Hdist Hbodies Hbelow
              ltac:(lia)) as (objs' & Hcat' & Hdist' & Hbelow' & Hlen').
  exists objs'. split; [exact Hcat'|]. split; [exact Hdist'|]. split.
  - eapply ids_below_weaken; [|exact Hbelow']. lia.
  - unfold spreadable, spread_limit. lia.
Qed.

(** The answer of the list route depends on the disk alone, and the route
    leaves the disk as it is. *)
Lemma list_answer_of_disk (w : World) (category : string) :
  exists r, forall w',
    disk w' = disk w ->
    exists w'', listProducts dirname path_join category w' = (Ret r, w'')
                /\ disk w'' = disk w.
Proof.
  destruct (disk w !! catalog_path category) as [[[v|s]|code]|] eqn:E.
  - exists {| status := 200; body := v |}. intros w' Hd. rewrite <- Hd in E.
    eexists. split.
    + unfold listProducts. erewrite try_catch_Ret; [reflexivity|].
      step_with (load_json w' category v E). reflexivity.
    + exact Hd.
  - eexists. intros w' Hd. rewrite <- Hd in E. eexists. split.
    + eapply list_load_throws. by eapply load_malformed.
    + exact Hd.
  - destruct (decide (code = "ENOENT")) as [->|Hcode].
    + exists {| status := 200; body := VArr [] |}. intros w' Hd. rewrite <- Hd in E.
      eexists. split.
      * unfold listProducts. erewrite try_catch_Ret; [reflexivity|].
        step_with (load_reports_no_entry w' category E). reflexivity.
      * exact Hd.
    + eexists. intros w' Hd. rewrite <- Hd in E. eexists. split.
      * eapply list_load_throws. by eapply load_faulty.
      * exact Hd.
  - exists {| status := 200; body := VArr [] |}. intros w' Hd. rewrite <- Hd in E.
    eexists. split.
    + unfold listProducts. erewrite try_catch_Ret; [reflexivity|].
      step_with (load_absent w' category E). reflexivity.
    + exact Hd.
Qed.

(** X2.  Listing twice, with nothing in between, gives the same answer
    twice, and leaves the disk as it was. *)
Theorem list_twice_same_answer (w : World) (category : string) :
  disk (snd (listProducts dirname path_join category w)) = disk w
  /\ fst (listProducts dirname path_join category
            (snd (listProducts dirname path_join category w)))
     = fst (listProducts dirname path_join category w).
Proof.
  destruct (list_answer_of_disk w category) as [r Hr].
  destruct (Hr w eq_refl) as (w1 & E1 & D1). rewrite E1. cbn [fst snd].
  destruct (Hr w1 D1) as (w2 & E2 & _). rewrite E2. by split.
Qed.

End ServerFacts.

(** ** What the routes do to the disk and to the log *)

Section RouteFacts.

Variable dirname : string.
Variable path_join : string -> string -> string.

#[local] Abbreviation catalog_path := (getProductsFilePath dirname path_join).
#[local] Abbreviation load := (loadProducts dirname path_join).
#[local] Abbreviation save := (saveProducts dirname path_join).

(** [loadProducts] on any disk: one read, and the value or the exception
    that the node at the path determines. *)
Lemma load_run (w : World) (category : string) :
  load category w
  = (loaded (disk w !! catalog_path category),
     record_event (EvReadFile (catalog_path category)) w).
Proof.
  unfold loadProducts, try_catch, bind, readFile, loaded.
  destruct (disk w !! catalog_path category) as [[[v|s]|code]|]; try reflexivity.
  cbn [error_code]. destruct (decide (code = "ENOENT")) as [->|Hc].
  - reflexivity.
  - destruct (decide (Some code = Some "ENOENT")) as [[= E]|_]; [contradiction|reflexivity].
Qed.

Lemma loaded_modelled (n : option node) : loaded n <> Unmodelled.
Proof.
  destruct n as [[[v|s]|code]|]; try discriminate.
  cbn. destruct (decide (code = "ENOENT")); discriminate.
Qed.

Lemma load_returns (category : string) : returns (fun _ => True) (load category).
Proof.
  intros w. rewrite load_run. cbn [fst].
  pose proof (loaded_modelled (disk w !! catalog_path category)).
  by destruct (loaded _).
Qed.

Lemma load_touches (Q : string -> Prop) (category : string) :
  touches_only Q (load category).
Proof. intros w q _. by rewrite load_run. Qed.

Lemma load_emits (R : event -> Prop) (category : string) :
  R (EvReadFile (catalog_path category)) -> emits R (load category).
Proof.
  intros HR. apply (emits_one R _ (EvReadFile (catalog_path category)) HR).
  intros w. by rewrite load_run.
Qed.

Lemma save_returns (category : string) (products : list value) :
  returns (fun _ => True) (save category products).
Proof.
  intros w. unfold saveProducts, writeFile.
  by destruct (disk w !! catalog_path category) as [[t|code]|].
Qed.

Lemma removeUpload_returns_or_throws (product : value) (f msg : string) :
  returns (fun _ => True) (removeUpload dirname path_join product f msg).
Proof.
  intros w. unfold removeUpload, bind, lift.
  destruct (get_prop product f) as [v|e|] eqn:Hg; cbn [fst]; [|exact I|by destruct product].
  destruct (truthy v); [|exact I].
  destruct (startsWith v "/uploads/") as [[|]|e|] eqn:Hs; cbn [fst]; try exact I.
  - destruct v as [[ |b|z|q|s|l|o]|]; try exact I.
    unfold try_catch, unlink, console_error.
    by destruct (disk w !! path_join dirname s) as [[t|code]|].
  - by destruct v as [[ |b|z|q|s|l|o]|].
Qed.

(** The effects of the clean-up of one field: it changes no path but
    [path.join(__dirname, s)] for a string [s] that begins with
    [/uploads/], there it removes at most, and it logs nothing else than
    its unlink and an error. *)
Lemma removeUpload_effects (product : value) (f msg : string) (path : string) :
  let m := removeUpload dirname path_join product f msg in
  touches_only
    (fun q => exists s, String.prefix "/uploads/" s = true /\ q = path_join dirname s) m
  /\ only_removes (fun _ => False) m
  /\ emits (delete_event dirname path_join path) m.
Proof.
  cbn zeta. unfold removeUpload. split; [|split].
  - apply touches_bind_lift. intros v _.
    destruct (truthy v); [|apply touches_ret].
    apply touches_bind_lift. intros [|] Hs; [|apply touches_ret].
    destruct v as [[ |b|z|q|s|l|o]|]; try apply touches_ret.
    injection Hs as Hs.
    apply touches_try_catch; [|intros e; apply touches_console_error].
    apply touches_unlink. by exists s.
  - apply only_removes_bind_lift. intros v _.
    destruct (truthy v); [|apply only_removes_touches, touches_ret].
    apply only_removes_bind_lift. intros [|] Hs; [|apply only_removes_touches, touches_ret].
    destruct v as [[ |b|z|q|s|l|o]|]; try apply only_removes_touches, touches_ret.
    apply only_removes_try_catch; [apply only_removes_unlink|].
    intros e. apply only_removes_touches, touches_console_error.
  - apply emits_bind_lift. intros v _.
    destruct (truthy v); [|apply emits_ret].
    apply emits_bind_lift. intros [|] Hs; [|apply emits_ret].
    destruct v as [[ |b|z|q|s|l|o]|]; try apply emits_ret.
    injection Hs as Hs.
    apply emits_try_catch; [|intros e; by apply emits_console_error].
    apply emits_unlink. by exists s.
Qed.

(** X4.  The two GET routes only read: whatever the disk holds, the list
    route and the single-product route leave every path of the disk as it
    was, and all they add to the log is the read of the catalog file of
    their category and console errors; they never write and never
    unlink. *)
Theorem get_routes_only_read (category id : string) :
  (forall w, disk (snd (listProducts dirname path_join category w)) = disk w)
  /\ (forall w, disk (snd (getProduct dirname path_join category id w)) = disk w)
  /\ emits (read_event (catalog_path category)) (listProducts dirname path_join category)
  /\ emits (read_event (catalog_path category))
       (getProduct dirname path_join category id).
Proof.
  split; [|split; [|split]].
  - intros w. apply untouched_disk. unfold listProducts.
    apply touches_try_catch.
    + apply touches_bind; [apply load_touches|intros v; apply touches_ret].
    + intros e. apply touches_bind; [apply touches_console_error|intros _; apply touches_ret].
  - intros w. apply untouched_disk. unfold getProduct.
    apply touches_try_catch.
    + apply touches_bind; [apply load_touches|intros v].
      apply touches_bind; [apply touches_lift|intros products].
      apply touches_bind; [apply touches_lift|intros [p|]]; apply touches_ret.
    + intros e. apply touches_bind; [apply touches_console_error|intros _; apply touches_ret].
  - unfold listProducts. apply emits_try_catch.
    + apply emits_bind; [by apply load_emits|intros v; apply emits_ret].
    + intros e. apply emits_bind; [by apply emits_console_error|intros _; apply emits_ret].
  - unfold getProduct. apply emits_try_catch.
    + apply emits_bind; [by apply load_emits|intros v].
      apply emits_bind_lift. intros products _.
      apply emits_bind_lift. intros [p|] _; apply emits_ret.
    + intros e. apply emits_bind; [by apply emits_console_error|intros _; apply emits_ret].
Qed.

(** X5.  No product route lets an exception escape, whatever the disk
    holds (no file, a file that is not JSON, JSON that is not an array, an
    array with [null] entries, a path that cannot be read): the list route
    answers 200 or 500; the single-product, update and delete routes answer
    200, 404 or 500; the create route answers 201 or 500, unless the
    catalog is an array in which some [id] is outside the numbers on which
    [Math.max] is modelled. *)
Theorem routes_always_answer (category id : string) (reqBody : gmap string value)
    (now1 now2 : string) (w : World) :
  answers_within [200; 500] (fst (listProducts dirname path_join category w))
  /\ answers_within [200; 404; 500] (fst (getProduct dirname path_join category id w))
  /\ (answers_within [201; 500]
        (fst (createProduct dirname path_join category reqBody now1 now2 w))
      \/ exists products,
           loaded (disk w !! catalog_path category) = Ret (VArr products)
           /\ newId products = Unmodelled)
  /\ answers_within [200; 404; 500]
       (fst (updateProduct dirname path_join category id reqBody now1 w))
  /\ answers_within [200; 404; 500] (fst (deleteProduct dirname path_join category id w)).
Proof.
  assert (Harr : forall l, returns (fun _ : list value => True) (lift (array_of l))).
  { intros l w'. by destruct l. }
  assert (Hidx : forall l n, returns (fun _ : option nat => True) (lift (findIndex l n))).
  { intros l n w'. pose proof (findIndex_from_returns_or_throws l n 0) as H.
    unfold lift, findIndex. cbn [fst]. by destruct (findIndex_from 0 l n). }
  split; [|split; [|split; [|split]]].
  - apply route_answers; [set_solver|].
    eapply returns_bind; [apply load_returns|]. intros v _.
    apply returns_ret. set_solver.
  - apply route_answers; [set_solver|].
    eapply returns_bind; [apply load_returns|]. intros v _.
    eapply returns_bind; [apply Harr|]. intros products _.
    eapply (returns_bind (fun _ => True)).
    { intros w'. pose proof (find_returns_or_throws products (parseInt id)) as H.
      unfold lift. cbn [fst]. by destruct (find products (parseInt id)). }
    intros [p|] _; apply returns_ret; set_solver.
  - unfold createProduct, try_catch, bind. rewrite load_run.
    pose proof (loaded_modelled (disk w !! catalog_path category)) as Hl.
    destruct (loaded (disk w !! catalog_path category)) as [v|e|];
      [|left; eexists; split; [reflexivity|set_solver]|contradiction].
    destruct v as [ |b|z|q|s|products|o];
      try (left; eexists; split; [reflexivity|set_solver]).
    cbn [array_of lift].
    destruct (newId products) as [n|e|] eqn:Hn;
      [|left; eexists; split; [reflexivity|set_solver]|right; by exists products].
    left. unfold saveProducts, writeFile. cbn [record_event disk].
    destruct (disk w !! catalog_path category) as [[t|code]|];
      eexists; (split; [reflexivity|set_solver]).
  - apply route_answers; [set_solver|].
    eapply returns_bind; [apply load_returns|]. intros v _.
    eapply returns_bind; [apply Harr|]. intros products _.
    eapply returns_bind; [apply Hidx|]. intros [i|] _; [|apply returns_ret; set_solver].
    eapply returns_bind; [apply save_returns|]. intros _ _. apply returns_ret. set_solver.
  - apply route_answers; [set_solver|].
    eapply returns_bind; [apply load_returns|]. intros v _.
    eapply returns_bind; [apply Harr|]. intros products _.
    eapply returns_bind; [apply Hidx|]. intros [i|] _; [|apply returns_ret; set_solver].
    eapply returns_bind; [apply removeUpload_returns_or_throws|]. intros _ _.
    eapply returns_bind; [apply removeUpload_returns_or_throws|]. intros _ _.
    eapply returns_bind; [apply save_returns|]. intros _ _. apply returns_ret. set_solver.
Qed.

(** A create that does not answer 201 left the disk as it was. *)
Lemma create_same_disk_or_201 (w : World) (category : string)
    (reqBody : gmap string value) (now1 now2 : string) :
  let create := createProduct dirname path_join category reqBody now1 now2 in
  disk (snd (create w)) = disk w
  \/ exists r, fst (create w) = Ret r /\ status r = 201.
Proof.
  unfold createProduct, try_catch, bind. rewrite load_run.
  destruct (loaded (disk w !! catalog_path category)) as [v|e|]; try by left.
  destruct v as [ |b|z|q|s|products|o]; try by left.
  cbn [array_of lift]. destruct (newId products) as [n|e|]; try by left.
  unfold saveProducts, writeFile. cbn [record_event disk].
  destruct (disk w !! catalog_path category) as [[t|code]|];
    try (by left); right; by eexists.
Qed.

(** An update that does not answer 200 left the disk as it was. *)
Lemma update_same_disk_or_200 (w : World) (category id : string)
    (reqBody : gmap string value) (now : string) :
  let update := updateProduct dirname path_join category id reqBody now in
  disk (snd (update w)) = disk w
  \/ exists r, fst (update w) = Ret r /\ status r = 200.
Proof.
  unfold updateProduct, try_catch, bind. rewrite load_run.
  destruct (loaded (disk w !! catalog_path category)) as [v|e|]; try by left.
  destruct v as [ |b|z|q|s|products|o]; try by left.
  cbn [array_of lift].
  destruct (findIndex products (parseInt id)) as [[i|]|e|]; try by left.
  unfold saveProducts, writeFile. cbn [record_event disk].
  destruct (disk w !! catalog_path category) as [[t|code]|];
    try (by left); right; by eexists.
Qed.

(** X6.  The create and update routes change nothing but the catalog file
    of their category: every other path of the disk is as before, they log
    only reads and writes of that file and console errors (no unlink), and
    the disk as a whole is unchanged unless create answers 201, or update
    answers 200. *)
Theorem create_update_change_only_their_catalog (category id : string)
    (reqBody : gmap string value) (now1 now2 : string) :
  let create := createProduct dirname path_join category reqBody now1 now2 in
  let update := updateProduct dirname path_join category id reqBody now1 in
  touches_only (fun q => q = catalog_path category) create
  /\ touches_only (fun q => q = catalog_path category) update
  /\ emits (catalog_event (catalog_path category)) create
  /\ emits (catalog_event (catalog_path category)) update
  /\ (forall w, disk (snd (create w)) = disk w
                \/ exists r, fst (create w) = Ret r /\ status r = 201)
  /\ (forall w, disk (snd (update w)) = disk w
                \/ exists r, fst (update w) = Ret r /\ status r = 200).
Proof.
  cbn zeta. split; [|split; [|split; [|split; [|split]]]].
  - unfold createProduct. apply touches_try_catch.
    + apply touches_bind; [apply load_touches|intros v].
      apply touches_bind; [apply touches_lift|intros products].
      apply touches_bind; [apply touches_lift|intros n].
      apply touches_bind; [by apply touches_writeFile|intros _; apply touches_ret].
    + intros e. apply touches_bind; [apply touches_console_error|intros _; apply touches_ret].
  - unfold updateProduct. apply touches_try_catch.
    + apply touches_bind; [apply load_touches|intros v].
      apply touches_bind; [apply touches_lift|intros products].
      apply touches_bind; [apply touches_lift|intros [i|]]; [|apply touches_ret].
      apply touches_bind; [by apply touches_writeFile|intros _; apply touches_ret].
    + intros e. apply touches_bind; [apply touches_console_error|intros _; apply touches_ret].
  - unfold createProduct. apply emits_try_catch.
    + apply emits_bind; [by apply load_emits|intros v].
      apply emits_bind_lift. intros products _.
      apply emits_bind_lift. intros n _.
      apply emits_bind; [by apply emits_writeFile|intros _; apply emits_ret].
    + intros e. apply emits_bind; [by apply emits_console_error|intros _; apply emits_ret].
  - unfold updateProduct. apply emits_try_catch.
    + apply emits_bind; [by apply load_emits|intros v].
      apply emits_bind_lift. intros products _.
      apply emits_bind_lift. intros [i|] _; [|apply emits_ret].
      apply emits_bind; [by apply emits_writeFile|intros _; apply emits_ret].
    + intros e. apply emits_bind; [by apply emits_console_error|intros _; apply emits_ret].
  - intros w. apply create_same_disk_or_201.
  - intros w. apply update_same_disk_or_200.
Qed.

(** X7.  The delete route changes the catalog file of its category and
    otherwise only removes: a path that is neither that file nor
    [path.join(__dirname, s)] for a string [s] beginning with [/uploads/]
    is untouched; every path other than the catalog file holds afterwards
    what it held or nothing; and the route logs only reads and writes of
    the catalog file, unlinks of such [path.join(__dirname, s)], and
    console errors. *)
Theorem delete_only_removes_uploads (category id : string) :
  let m := deleteProduct dirname path_join category id in
  touches_only
    (fun q => q = catalog_path category
              \/ exists s, String.prefix "/uploads/" s = true /\ q = path_join dirname s) m
  /\ only_removes (fun q => q = catalog_path category) m
  /\ emits (delete_event dirname path_join (catalog_path category)) m.
Proof.
  cbn zeta. unfold deleteProduct. split; [|split].
  - apply touches_try_catch;
      [|intros e; apply touches_bind; [apply touches_console_error|intros _; apply touches_ret]].
    apply touches_bind; [apply load_touches|intros v].
    apply touches_bind; [apply touches_lift|intros products].
    apply touches_bind; [apply touches_lift|intros [i|]]; [|apply touches_ret].
    apply touches_bind; [|intros _; apply touches_bind; [|intros _]].
    + eapply touches_weaken;
        [|apply (removeUpload_effects _ _ _ (catalog_path category))]. intros q H. by right.
    + eapply touches_weaken;
        [|apply (removeUpload_effects _ _ _ (catalog_path category))]. intros q H. by right.
    + apply touches_bind; [apply touches_writeFile; by left|intros _; apply touches_ret].
  - apply only_removes_try_catch;
      [|intros e; apply only_removes_touches, touches_bind;
         [apply touches_console_error|intros _; apply touches_ret]].
    apply only_removes_bind; [apply only_removes_touches, load_touches|intros v].
    apply only_removes_bind_lift. intros products _.
    apply only_removes_bind_lift. intros [i|] _; [|apply only_removes_touches, touches_ret].
    apply only_removes_bind; [|intros _; apply only_removes_bind; [|intros _]].
    + eapply only_removes_weaken;
        [|apply (removeUpload_effects _ _ _ (catalog_path category))]. intros q [].
    + eapply only_removes_weaken;
        [|apply (removeUpload_effects _ _ _ (catalog_path category))]. intros q [].
    + apply only_removes_touches.
      apply touches_bind; [by apply touches_writeFile|intros _; apply touches_ret].
  - apply emits_try_catch;
      [|intros e; apply emits_bind; [by apply emits_console_error|intros _; apply emits_ret]].
    apply emits_bind; [by apply load_emits|intros v].
    apply emits_bind_lift. intros products _.
    apply emits_bind_lift. intros [i|] _; [|apply emits_ret].
    apply emits_bind; [apply removeUpload_effects|intros _].
    apply emits_bind; [apply removeUpload_effects|intros _].
    apply emits_bind; [by apply emits_writeFile|intros _; apply emits_ret].
Qed.

(** The update handler on a catalog file that holds an array in which the
    scan finds the position [i]. *)
Lemma update_found_run (w : World) (category id : string)
    (reqBody : gmap string value) (now : string) (products : list value) (i : nat) :
  disk w !! catalog_path category = Some (File (Json (VArr products))) ->
  findIndex products (parseInt id) = Ret (Some i) ->
  let updated :=
    updated_record (default VNull (products !! i)) reqBody (parseInt id) now in
  let saved := Json (VArr (<[i := VObj updated]> products)) in
  updateProduct dirname path_join category id reqBody now w
  = (Ret {| status := 200; body := VObj updated |},
     set_disk (<[catalog_path category := File saved]> (disk w))
       (record_event (EvWriteFile (catalog_path category) saved)
          (record_event (EvReadFile (catalog_path category)) w))).
Proof.
  intros Hd Hidx updated saved. unfold updateProduct, try_catch, bind.
  rewrite load_run, Hd. cbn [loaded array_of lift]. rewrite Hidx.
  unfold saveProducts, writeFile. cbn [record_event disk]. by rewrite Hd.
Qed.

(** An update that answers 200 found its record in an array on the disk. *)
Lemma update_answers_200 (w : World) (category id : string)
    (reqBody : gmap string value) (now : string) (r : response) :
  fst (updateProduct dirname path_join category id reqBody now w) = Ret r ->
  status r = 200 ->
  exists products i,
    disk w !! catalog_path category = Some (File (Json (VArr products)))
    /\ findIndex products (parseInt id) = Ret (Some i).
Proof.
  unfold updateProduct, try_catch, bind. rewrite load_run.
  destruct (disk w !! catalog_path category) as [[[v|s]|code]|] eqn:Hd; cbn [loaded].
  - destruct v as [ |b|z|q|s|products|o];
      try (intros [= <-] Hs; by vm_compute in Hs).
    cbn [array_of lift].
    destruct (findIndex products (parseInt id)) as [[i|]|e|] eqn:Hidx;
      try (intros [= <-] Hs; by vm_compute in Hs).
    intros _ _. by exists products, i.
  - intros [= <-] Hs. by vm_compute in Hs.
  - destruct (decide (code = "ENOENT")); intros [= <-] Hs; by vm_compute in Hs.
  - intros [= <-] Hs. by vm_compute in Hs.
Qed.

(** The single-product route on a catalog file that holds an array. *)
Lemma get_run (w : World) (category id : string) (products : list value) (p : value) :
  disk w !! catalog_path category = Some (File (Json (VArr products))) ->
  find products (parseInt id) = Ret (Some p) ->
  fst (getProduct dirname path_join category id w) = Ret {| status := 200; body := p |}.
Proof.
  intros Hd Hfind. unfold getProduct, try_catch, bind.
  rewrite load_run, Hd. cbn [loaded array_of lift]. by rewrite Hfind.
Qed.

(** X8.  Reading back an update: when the update route answers 200, the
    single-product route asked next for the same [id] string answers 200
    with the very record the update answered.  This holds for every
    content of the catalog file, also with several records that carry the
    identifier, with records without one, and with entries that are not
    objects: the scan stops at the position the update wrote. *)
Theorem update_then_get (category id : string) (reqBody : gmap string value)
    (now : string) (w : World) (r : response) :
  fst (updateProduct dirname path_join category id reqBody now w) = Ret r ->
  status r = 200 ->
  fst (getProduct dirname path_join category id
         (snd (updateProduct dirname path_join category id reqBody now w)))
  = Ret r.
Proof.
  intros Hr Hs.
  destruct (update_answers_200 w category id reqBody now r Hr Hs)
    as (products & i & Hd & Hidx).
  rewrite (update_found_run w category id reqBody now products i Hd Hidx) in Hr |- *.
  cbn [fst snd] in Hr |- *. injection Hr as <-.
  destruct (findIndex_from_number _ _ _ _ Hidx) as [z Hz].
  eapply get_run; [cbn [set_disk disk]; apply lookup_insert_eq|].
  set (updated := updated_record _ _ _ _).
  destruct (scan_after_insert products (parseInt id) 0 i (VObj updated)
              (Some (VNum z)) Hidx) as [_ Hfind].
  - unfold updated, updated_record. cbn [get_prop].
    rewrite lookup_insert_ne by done. rewrite lookup_insert_eq. by rewrite Hz.
  - rewrite Hz. cbn. apply Z.eqb_refl.
  - by rewrite Nat.sub_0_r in Hfind.
Qed.

(** The answer of the update route and the disk it leaves depend on the
    disk it starts from, not on the log. *)
Lemma update_of_disk (w w' : World) (category id : string)
    (reqBody : gmap string value) (now : string) :
  disk w' = disk w ->
  fst (updateProduct dirname path_join category id reqBody now w')
  = fst (updateProduct dirname path_join category id reqBody now w)
  /\ disk (snd (updateProduct dirname path_join category id reqBody now w'))
     = disk (snd (updateProduct dirname path_join category id reqBody now w)).
Proof.
  intros Hd. unfold updateProduct, try_catch, bind. rewrite !load_run, Hd.
  destruct (loaded (disk w !! catalog_path category)) as [v|e|];
    [|by split|by split].
  destruct v as [ |b|z|q|s|products|o]; try by split.
  cbn [array_of lift].
  destruct (findIndex products (parseInt id)) as [[i|]|e|]; try by split.
  unfold saveProducts, writeFile. cbn [record_event disk]. rewrite Hd.
  destruct (disk w !! catalog_path category) as [[t|code]|]; by split.
Qed.

(** X9.  The update route is idempotent: the same update again (same
    [id] string, same body, same reading of the clock) gets the same answer
    and leaves the disk as the first one left it, whatever the disk held
    before. *)
Theorem update_twice_same (category id : string) (reqBody : gmap string value)
    (now : string) (w : World) :
  let update := updateProduct dirname path_join category id reqBody now in
  fst (update (snd (update w))) = fst (update w)
  /\ disk (snd (update (snd (update w)))) = disk (snd (update w)).
Proof.
  cbn zeta.
  destruct (update_same_disk_or_200 w category id reqBody now) as [Hd|(r & Hr & Hs)].
  { destruct (update_of_disk w _ category id reqBody now Hd) as [E1 E2].
    split; [exact E1|]. by rewrite E2. }
  destruct (update_answers_200 w category id reqBody now r Hr Hs)
    as (products & i & Hd & Hidx).
  rewrite (update_found_run w category id reqBody now products i Hd Hidx).
  cbn [fst snd]. set (updated := updated_record _ _ _ _).
  destruct (findIndex_from_number _ _ _ _ Hidx) as [z Hz].
  pose proof (findIndex_from_in_range _ _ _ _ Hidx) as Hi.
  destruct (scan_after_insert products (parseInt id) 0 i (VObj updated)
              (Some (VNum z)) Hidx) as [Hidx' _].
  { unfold updated, updated_record. cbn [get_prop].
    rewrite lookup_insert_ne by done. rewrite lookup_insert_eq. by rewrite Hz. }
  { rewrite Hz. cbn. apply Z.eqb_refl. }
  rewrite Nat.sub_0_r in Hidx'.
  erewrite update_found_run;
    [|cbn [set_disk disk]; apply lookup_insert_eq|exact Hidx'].
  rewrite list_lookup_insert_eq by lia. cbn [default]. unfold Datatypes.id.
  unfold updated. rewrite updated_record_again. fold updated.
  rewrite list_insert_insert_eq. cbn [fst snd set_disk disk].
  split; [reflexivity|]. apply insert_insert_eq.
Qed.

(** The answer of the list route, from the node at the path of the
    catalog. *)
Lemma list_run (w : World) (category : string) :
  fst (listProducts dirname path_join category w)
  = match loaded (disk w !! catalog_path category) with
    | Ret v => Ret {| status := 200; body := v |}
    | Throw _ => Ret (error_response 500 "Failed to load products")
    | Unmodelled => Unmodelled
    end.
Proof.
  unfold listProducts, try_catch, bind. rewrite load_run.
  by destruct (loaded (disk w !! catalog_path category)).
Qed.

(** The answer of the single-product route depends on the node at the path
    of the catalog alone. *)
Lemma get_of_node (w w' : World) (category id : string) :
  disk w' !! catalog_path category = disk w !! catalog_path category ->
  fst (getProduct dirname path_join category id w')
  = fst (getProduct dirname path_join category id w).
Proof.
  intros Hd. unfold getProduct, try_catch, bind. rewrite !load_run, Hd.
  destruct (loaded (disk w !! catalog_path category)) as [v|e|]; try reflexivity.
  destruct v as [ |b|z|q|s|products|o]; try reflexivity.
  cbn [array_of lift]. by destruct (find products (parseInt id)) as [[p|]|e|].
Qed.

(** A create that answers 201 loaded an array, computed an identifier and
    wrote the array with the new record at its end. *)
Lemma create_answers_201 (w : World) (category : string)
    (reqBody : gmap string value) (now1 now2 : string) (r : response) :
  fst (createProduct dirname path_join category reqBody now1 now2 w) = Ret r ->
  status r = 201 ->
  exists products n,
    loaded (disk w !! catalog_path category) = Ret (VArr products)
    /\ newId products = Ret n
    /\ let product := VObj (created_record n reqBody now1 now2) in
       let saved := Json (VArr (products ++ [product])) in
       createProduct dirname path_join category reqBody now1 now2 w
       = (Ret {| status := 201; body := product |},
          set_disk (<[catalog_path category := File saved]> (disk w))
            (record_event (EvWriteFile (catalog_path category) saved)
               (record_event (EvReadFile (catalog_path category)) w))).
Proof.
  unfold createProduct, try_catch, bind. rewrite load_run.
  destruct (loaded (disk w !! catalog_path category)) as [v|e|];
    try (intros [= <-] Hs; by vm_compute in Hs).
  destruct v as [ |b|z|q|s|products|o];
    try (intros [= <-] Hs; by vm_compute in Hs).
  cbn [array_of lift].
  destruct (newId products) as [n|e|] eqn:Hn;
    try (intros [= <-] Hs; by vm_compute in Hs).
  unfold saveProducts, writeFile. cbn [record_event disk].
  destruct (disk w !! catalog_path category) as [[t|code]|];
    try (intros [= <-] Hs; by vm_compute in Hs);
    intros _ _; by exists products, n.
Qed.

(** X10.  Listing after a create: when the create route answers 201, the
    list route would have answered 200 with an array before it, and
    answers 200 after it with that array followed by the record the create
    answered: nothing else of the catalog changed and the new record is the
    last. *)
Theorem create_then_list (category : string) (reqBody : gmap string value)
    (now1 now2 : string) (w : World) (r : response) :
  fst (createProduct dirname path_join category reqBody now1 now2 w) = Ret r ->
  status r = 201 ->
  exists products,
    fst (listProducts dirname path_join category w)
    = Ret {| status := 200; body := VArr products |}
    /\ fst (listProducts dirname path_join category
              (snd (createProduct dirname path_join category reqBody now1 now2 w)))
       = Ret {| status := 200; body := VArr (products ++ [body r]) |}.
Proof.
  intros Hr Hs.
  destruct (create_answers_201 w category reqBody now1 now2 r Hr Hs)
    as (products & n & Hl & _ & Hrun).
  cbn zeta in Hrun. rewrite Hrun in Hr |- *. cbn [fst snd] in Hr |- *.
  injection Hr as <-. exists products. rewrite !list_run, Hl.
  split; [reflexivity|]. cbn [set_disk disk]. by rewrite lookup_insert_eq.
Qed.

(** X11.  Categories are isolated under create and update: when the
    catalogs of two categories are different files, a create or an update
    in one category changes neither what the list route nor what the
    single-product route answers for the other. *)
Theorem other_category_unaffected (category other id id' : string)
    (reqBody : gmap string value) (now1 now2 : string) (w w1 : World) :
  catalog_path other <> catalog_path category ->
  w1 = snd (createProduct dirname path_join category reqBody now1 now2 w)
  \/ w1 = snd (updateProduct dirname path_join category id reqBody now1 w) ->
  fst (listProducts dirname path_join other w1)
  = fst (listProducts dirname path_join other w)
  /\ fst (getProduct dirname path_join other id' w1)
     = fst (getProduct dirname path_join other id' w).
Proof.
  intros Hneq Hw1.
  assert (Hd : disk w1 !! catalog_path other = disk w !! catalog_path other).
  { destruct Hw1 as [-> | ->].
    - destruct (create_same_disk_or_201 w category reqBody now1 now2)
        as [E|(r & Hr & Hs)]; [by rewrite E|].
      destruct (create_answers_201 w category reqBody now1 now2 r Hr Hs)
        as (products & n & _ & _ & Hrun).
      cbn zeta in Hrun. rewrite Hrun. cbn [snd set_disk disk].
      by apply lookup_insert_ne.
    - destruct (update_same_disk_or_200 w category id reqBody now1)
        as [E|(r & Hr & Hs)]; [by rewrite E|].
      destruct (update_answers_200 w category id reqBody now1 r Hr Hs)
        as (products & i & Hdisk & Hidx).
      rewrite (update_found_run w category id reqBody now1 products i Hdisk Hidx).
      cbn [snd set_disk disk]. by apply lookup_insert_ne. }
  split; [by rewrite !list_run, Hd|by apply get_of_node].
Qed.

(** X12.  When the data directory is missing (reads and writes of the
    catalog path fail with ENOENT), the list route answers 200 with the
    empty array, as for a catalog that was never written, while the create
    route answers 500 and stores nothing: the failed write is not
    reported as a missing catalog. *)
Theorem missing_data_directory (category : string) (reqBody : gmap string value)
    (now1 now2 : string) (w : World) :
  disk w !! catalog_path category = Some (Faulty "ENOENT") ->
  listProducts dirname path_join category w
  = (Ret {| status := 200; body := VArr [] |},
     record_event (EvReadFile (catalog_path category)) w)
  /\ fst (createProduct dirname path_join category reqBody now1 now2 w)
     = Ret (error_response 500 "Failed to create product")
  /\ disk (snd (createProduct dirname path_join category reqBody now1 now2 w)) = disk w.
Proof.
  intros Hd. split; [|split].
  - unfold listProducts, try_catch, bind. by rewrite load_run, Hd.
  - unfold createProduct, try_catch, bind. rewrite load_run, Hd.
    cbn [loaded decide]. unfold saveProducts, writeFile. cbn. by rewrite Hd.
  - unfold createProduct, try_catch, bind. rewrite load_run, Hd.
    cbn [loaded decide]. unfold saveProducts, writeFile. cbn. by rewrite Hd.
Qed.

(** The delete handler on a catalog of objects in which the first record
    carrying the identifier has upload fields that are absent, falsy or
    strings: it answers 200 and saves the catalog without that record. *)
Lemma delete_found_runs (w : World) (category id : string)
    (objs : list (gmap string value)) (n : Z) (i : nat) (old : gmap string value) :
  holds_catalog w (catalog_path category) objs ->
  parseInt id = Some n ->
  first_with_id n objs i old ->
  upload_field old "image" ->
  upload_field old "audioFile" ->
  exists w',
    deleteProduct dirname path_join category id w
    = (Ret {| status := 200;
              body := VObj (obj [("message", VStr "Product deleted successfully")]) |},
       w')
    /\ holds_catalog w' (catalog_path category) (delete i objs).
Proof.
  intros Hcat Hid Hfirst Himg Haud. pose proof Hfirst as (Hi & _ & _).
  set (w0 := record_event (EvReadFile (catalog_path category)) w).
  assert (Hcat0 : holds_catalog w0 (catalog_path category) objs) by exact Hcat.
  destruct (removeUpload_returns dirname path_join old "image"
              "Error deleting image file:" w0 Himg) as (w1 & Hrun1 & Hdisk1 & _).
  pose proof (holds_catalog_shrunk w0 w1 _ objs (or_introl Hcat0) (Hdisk1 _)) as Hcat1.
  destruct (removeUpload_returns dirname path_join old "audioFile"
              "Error deleting audio file:" w1 Haud) as (w2 & Hrun2 & Hdisk2 & _).
  pose proof (holds_catalog_shrunk w1 w2 _ objs Hcat1 (Hdisk2 _)) as Hcat2.
  eexists. split.
  - unfold deleteProduct. erewrite try_catch_Ret; [reflexivity|].
    step_with (load_catalog dirname path_join w category objs Hcat). step.
    erewrite bind_Ret;
      [| unfold lift; rewrite Hid, (findIndex_first n objs i old Hfirst); reflexivity ].
    cbv beta iota. rewrite list_lookup_fmap, Hi.
    cbn [fmap option_fmap option_map default].
    erewrite bind_Ret; [| exact Hrun1 ].
    erewrite bind_Ret; [| exact Hrun2 ].
    erewrite bind_Ret; [reflexivity|]. apply save_writes.
    destruct Hcat2 as [H|H]; by apply (holds_catalog_writable dirname path_join w2 category _ H).
  - left. cbn [set_disk disk]. rewrite lookup_insert_eq. by rewrite list_fmap_delete.
Qed.

(** X13.  Identifiers are reused: on a catalog of at most [spread_limit]
    records whose stored ids are safe integers or absent, create a record
    from a body without [id], delete it by the identifier it was given, and
    create another record: the second record gets the identifier of the
    deleted one (at most 2^53, hence exact), and the catalog ends as the
    first catalog followed by the second record. *)
Theorem deleted_newest_id_is_reused (category : string)
    (reqBody reqBody' : gmap string value) (now1 now2 now3 now4 : string)
    (w : World) (objs : list (gmap string value)) :
  holds_catalog w (catalog_path category) objs ->
  Forall plain_id objs ->
  Forall safe_id objs ->
  spreadable objs ->
  reqBody !! "id" = None ->
  reqBody' !! "id" = None ->
  upload_field reqBody "image" ->
  upload_field reqBody "audioFile" ->
  exists n first second w1 w2 w3,
    createProduct dirname path_join category reqBody now1 now2 w
    = (Ret {| status := 201; body := VObj first |}, w1)
    /\ first !! "id" = Some (VNum n)
    /\ - 2 ^ 53 < n <= 2 ^ 53
    /\ deleteProduct dirname path_join category (pretty n) w1
       = (Ret {| status := 200;
                 body := VObj (obj [("message", VStr "Product deleted successfully")]) |},
          w2)
    /\ createProduct dirname path_join category reqBody' now3 now4 w2
       = (Ret {| status := 201; body := VObj second |}, w3)
    /\ second !! "id" = Some (VNum n)
    /\ holds_catalog w3 (catalog_path category) (objs ++ [second])%list.
Proof.
  intros Hcat Hplain Hsafe _ Hb Hb' Himg Haud.
  destruct (create_appends dirname path_join w category reqBody now1 now2 objs Hcat Hplain)
    as (n & w1 & Hn & Hfresh & Hrun1 & Hcat1).
  assert (Hexact : - 2 ^ 53 < n <= 2 ^ 53).
  { pose proof (newId_below objs (2 ^ 53) n Hplain Hsafe ltac:(lia) Hn). lia. }
  set (first := created_record n reqBody now1 now2) in *.
  assert (Hfirst_id : first !! "id" = Some (VNum n))
    by by apply created_record_id_assigned.
  assert (Hfirst : first_with_id n (objs ++ [first])%list (length objs) first).
  { split; [|split; [exact Hfirst_id|]].
    - rewrite lookup_app_r by lia. by rewrite Nat.sub_diag.
    - intros j o Hj Ho. rewrite lookup_app_l in Ho by lia.
      apply Hfresh. by eapply list_elem_of_lookup_2. }
  assert (Hfield : forall f, f <> "id" -> f <> "createdAt" -> f <> "updatedAt" ->
            upload_field reqBody f -> upload_field first f).
  { intros f H1 H2 H3 Hf. unfold upload_field, first.
    rewrite (created_record_extends n reqBody now1 now2 Hb).
    by rewrite !lookup_insert_ne. }
  destruct (delete_found_runs w1 category (pretty n) _ n _ first Hcat1
              (parseInt_decimal n) Hfirst) as (w2 & Hrun2 & Hcat2);
    [by apply Hfield|by apply Hfield|].
  assert (Hdel : delete (length objs) (objs ++ [first])%list = objs).
  { rewrite delete_middle. apply app_nil_r. }
  rewrite Hdel in Hcat2.
  destruct (create_appends dirname path_join w2 category reqBody' now3 now4 objs
              Hcat2 Hplain) as (n' & w3 & Hn' & _ & Hrun3 & Hcat3).
  assert (n' = n) as -> by congruence.
  exists n, first, (created_record n reqBody' now3 now4), w1, w2, w3.
  split; [exact Hrun1|]. split; [exact Hfirst_id|]. split; [exact Hexact|].
  split; [exact Hrun2|].
  split; [exact Hrun3|]. split; [by apply created_record_id_assigned|exact Hcat3].
Qed.

(** X14.  Only the leading number of the [id] parameter counts: for
    every integer [z], the [id] string made of the decimal form of [z]
    followed by any text that does not begin with a decimal digit (and,
    after a lone [0], not with [x] or [X]) is served by the single-product,
    update and delete routes exactly as the decimal form of [z] alone: same
    answer, same disk, same log. *)
Theorem id_is_read_up_to_its_digits (category : string) (z : Z) (c : ascii)
    (rest : string) (reqBody : gmap string value) (now : string) (w : World) :
  (forall d, digit_value c = Some d -> 10 <= d) ->
  (z = 0 -> c <> "x"%char /\ c <> "X"%char) ->
  let id := pretty z +:+ String c rest in
  getProduct dirname path_join category id w
  = getProduct dirname path_join category (pretty z) w
  /\ updateProduct dirname path_join category id reqBody now w
     = updateProduct dirname path_join category (pretty z) reqBody now w
  /\ deleteProduct dirname path_join category id w
     = deleteProduct dirname path_join category (pretty z) w.
Proof.
  intros Hdigit Hzero id.
  assert (E : parseInt id = parseInt (pretty z))
    by (unfold id; by rewrite parseInt_numeric_prefix, parseInt_decimal).
  unfold getProduct, updateProduct, deleteProduct. by rewrite E.
Qed.


End RouteFacts.

(** ** Uploads (C8) *)

Section UploadFacts.

Variable extname : string -> string.
Variable limit_is_exclusive : bool.

(** C8, as the code has it.  On each upload route: a request without a
    file part is answered 400 with the route's message; a file under
    another field is refused by multer, and Express answers 500; a file
    under the route's field whose content type lacks the prefix makes the
    filter pass an error to Express, which answers 500, and so does a file
    of the right type that is larger than the ceiling (10 MiB for images,
    50 MiB for audio); a file of the right type below the ceiling is
    answered 200 with its URL and its generated name. *)
Theorem upload_statuses (now rnd : Z) :
  postUploadImage extname limit_is_exclusive None now rnd
  = JsonReply (error_response 400 "No image file provided")
  /\ postUploadAudio extname limit_is_exclusive None now rnd
     = JsonReply (error_response 400 "No audio file provided")
  /\ (forall file,
        fieldname file <> "image" ->
        postUploadImage extname limit_is_exclusive (Some file) now rnd = ErrorPage 500)
  /\ (forall file,
        fieldname file <> "audio" ->
        postUploadAudio extname limit_is_exclusive (Some file) now rnd = ErrorPage 500)
  /\ (forall file,
        fieldname file = "image" ->
        String.prefix "image/" (mimetype file) = false ->
        postUploadImage extname limit_is_exclusive (Some file) now rnd = ErrorPage 500)
  /\ (forall file,
        fieldname file = "audio" ->
        String.prefix "audio/" (mimetype file) = false ->
        postUploadAudio extname limit_is_exclusive (Some file) now rnd = ErrorPage 500)
  /\ (forall file,
        fieldname file = "image" ->
        String.prefix "image/" (mimetype file) = true ->
        10 * 1024 * 1024 < size file ->
        postUploadImage extname limit_is_exclusive (Some file) now rnd = ErrorPage 500)
  /\ (forall file,
        fieldname file = "audio" ->
        String.prefix "audio/" (mimetype file) = true ->
        50 * 1024 * 1024 < size file ->
        postUploadAudio extname limit_is_exclusive (Some file) now rnd = ErrorPage 500)
  /\ (forall file,
        fieldname file = "image" ->
        String.prefix "image/" (mimetype file) = true ->
        size file < 10 * 1024 * 1024 ->
        let filename := storage_filename extname now rnd file in
        postUploadImage extname limit_is_exclusive (Some file) now rnd
        = JsonReply {| status := 200;
                       body := VObj (obj [("url", VStr ("/uploads/images/" +:+ filename));
                                          ("filename", VStr filename)]) |})
  /\ (forall file,
        fieldname file = "audio" ->
        String.prefix "audio/" (mimetype file) = true ->
        size file < 50 * 1024 * 1024 ->
        let filename := storage_filename extname now rnd file in
        postUploadAudio extname limit_is_exclusive (Some file) now rnd
        = JsonReply {| status := 200;
                       body := VObj (obj [("url", VStr ("/uploads/audio/" +:+ filename));
                                          ("filename", VStr filename)]) |}).
Proof.
  split; [reflexivity|]. split; [reflexivity|].
  split; [|split].
  1, 2: intros file Hfield; unfold postUploadImage, postUploadAudio, single;
    destruct (String.eqb_spec (fieldname file) "image");
    destruct (String.eqb_spec (fieldname file) "audio");
    try contradiction; reflexivity.
  repeat split; intros file Hfield Hmime; try intros Hsize;
    unfold postUploadImage, postUploadAudio, single;
    rewrite Hfield; cbn [String.eqb Ascii.eqb Bool.eqb negb];
    cbn [fileFilter imageUpload audioUpload];
    unfold imageFilter, audioFilter, over_limit; cbn [fileSize imageUpload audioUpload];
    rewrite Hmime; try reflexivity.
  - destruct (Z.ltb_spec (10 * 1024 * 1024) (size file)); [reflexivity|lia].
  - destruct (Z.ltb_spec (50 * 1024 * 1024) (size file)); [reflexivity|lia].
  - destruct (Z.ltb_spec (10 * 1024 * 1024) (size file)); [lia|].
    destruct (Z.eqb_spec (size file) (10 * 1024 * 1024)); [lia|].
    rewrite andb_false_r. reflexivity.
  - destruct (Z.ltb_spec (50 * 1024 * 1024) (size file)); [lia|].
    destruct (Z.eqb_spec (size file) (50 * 1024 * 1024)); [lia|].
    rewrite andb_false_r. reflexivity.
Qed.

(** X15.  What a 200 of an upload route means.  The image route answers
    200 only to a request with a file part under the field [image] whose
    content type begins with [image/] and whose size is at most 10 MiB; the
    URL it answers is [/uploads/images/] followed by the generated name,
    which is what the delete route recognises as an upload when a record
    carries it as its [image]; and the audio route answers 500 to the same
    file part.  The same holds for the audio route with the field [audio],
    the prefix [audio/], 50 MiB, [/uploads/audio/] and [audioFile]. *)
Theorem upload_accepted_means (now rnd : Z) (part : option file_part) (r : response) :
  (postUploadImage extname limit_is_exclusive part now rnd = JsonReply r ->
   status r = 200 ->
   exists file,
     part = Some file
     /\ fieldname file = "image"
     /\ String.prefix "image/" (mimetype file) = true
     /\ size file <= 10 * 1024 * 1024
     /\ r = uploadImage (Some (storage_filename extname now rnd file))
     /\ (forall o : gmap string value,
           let url := "/uploads/images/" +:+ storage_filename extname now rnd file in
           upload_url (<["image" := VStr url]> o) "image" url)
     /\ postUploadAudio extname limit_is_exclusive part now rnd = ErrorPage 500)
  /\ (postUploadAudio extname limit_is_exclusive part now rnd = JsonReply r ->
      status r = 200 ->
      exists file,
        part = Some file
        /\ fieldname file = "audio"
        /\ String.prefix "audio/" (mimetype file) = true
        /\ size file <= 50 * 1024 * 1024
        /\ r = uploadAudio (Some (storage_filename extname now rnd file))
        /\ (forall o : gmap string value,
              let url := "/uploads/audio/" +:+ storage_filename extname now rnd file in
              upload_url (<["audioFile" := VStr url]> o) "audioFile" url)
        /\ postUploadImage extname limit_is_exclusive part now rnd = ErrorPage 500).
Proof.
  split.
  - unfold postUploadImage, postUploadAudio, single.
    destruct part as [file|]; [|intros [= <-] Hs; by vm_compute in Hs].
    destruct (String.eqb_spec (fieldname file) "image") as [Hf|Hf];
      cbn [negb]; [|discriminate].
    cbn [fileFilter imageUpload]. unfold imageFilter.
    destruct (String.prefix "image/" (mimetype file)) eqn:Hm; [|discriminate].
    destruct (over_limit limit_is_exclusive imageUpload file) eqn:Hl; [discriminate|].
    intros [= <-] _. exists file. split; [reflexivity|]. split; [exact Hf|].
    split; [exact Hm|]. split; [|split; [reflexivity|split]].
    + unfold over_limit in Hl. cbn [fileSize imageUpload] in Hl.
      apply orb_false_elim in Hl as [Hl _]. apply Z.ltb_ge in Hl. exact Hl.
    + intros o. split; [apply lookup_insert_eq|]. split; [discriminate|reflexivity].
    + rewrite Hf. reflexivity.
  - unfold postUploadImage, postUploadAudio, single.
    destruct part as [file|]; [|intros [= <-] Hs; by vm_compute in Hs].
    destruct (String.eqb_spec (fieldname file) "audio") as [Hf|Hf];
      cbn [negb]; [|discriminate].
    cbn [fileFilter audioUpload]. unfold audioFilter.
    destruct (String.prefix "audio/" (mimetype file)) eqn:Hm; [|discriminate].
    destruct (over_limit limit_is_exclusive audioUpload file) eqn:Hl; [discriminate|].
    intros [= <-] _. exists file. split; [reflexivity|]. split; [exact Hf|].
    split; [exact Hm|]. split; [|split; [reflexivity|split]].
    + unfold over_limit in Hl. cbn [fileSize audioUpload] in Hl.
      apply orb_false_elim in Hl as [Hl _]. apply Z.ltb_ge in Hl. exact Hl.
    + intros o. split; [apply lookup_insert_eq|]. split; [discriminate|reflexivity].
    + rewrite Hf. reflexivity.
Qed.

(** X16.  The generated name of a stored upload determines what it was
    made from: when [path.extname] gives the empty string or a string that
    begins with a dot, two stored names are equal only if the two readings
    of the clock, the two random numbers and the two extensions are equal.
    Nothing else of the original name enters the stored name. *)
Theorem storage_filename_determines (now rnd now' rnd' : Z) (file file' : file_part) :
  (forall name, extname name = "" \/ exists r, extname name = String "." r) ->
  storage_filename extname now rnd file = storage_filename extname now' rnd' file' ->
  now = now' /\ rnd = rnd'
  /\ extname (originalname file) = extname (originalname file').
Proof.
  intros Hext. unfold storage_filename.
  assert (Hdash : forall d, digit_value "-" = Some d -> 10 <= d) by (intros d [=]).
  assert (Hdot : forall d, digit_value "." = Some d -> 10 <= d) by (intros d [=]).
  assert (Htail : forall z name, parseInt (pretty z +:+ extname name) = Some z).
  { intros z name. destruct (Hext name) as [->|[r ->]].
    - rewrite append_empty. apply parseInt_decimal.
    - apply parseInt_numeric_prefix; [exact Hdot|]. intros _. split; discriminate. }
  intros E.
  assert (Hnow : now = now').
  { pose proof (f_equal parseInt E) as P.
    change ("-" +:+ ?x) with (String "-" x) in P.
    rewrite !parseInt_numeric_prefix in P;
      [by injection P|exact Hdash|intros _; split; discriminate
      |exact Hdash|intros _; split; discriminate]. }
  subst now'. apply (inj (String.app (pretty now))) in E.
  change ("-" +:+ ?x) with (String "-" x) in E. injection E as E.
  assert (Hrnd : rnd = rnd').
  { pose proof (f_equal parseInt E) as P. rewrite !Htail in P. by injection P. }
  subst rnd'. apply (inj (String.app (pretty rnd))) in E. by repeat split.
Qed.

End UploadFacts.

(** * The handlers on concrete requests *)

Lemma coffee_world_catalog :
  holds_catalog coffee_world coffee_path [latte; mocha].
Proof. left. reflexivity. Qed.


(** *** Create with an [id] in the body (C1, C2) *)

(** C1 at a failing input.  On a catalog with no file the new identifier
    is 1, yet the record created from the body
    [{id: 42, name: "Latte", createdAt: "1999"}] carries the identifier 42
    of the body: the literal lists [id] before the spread of the body, so
    the body replaces it.  The timestamps come after the spread: the
    [createdAt] of the body is replaced by the service's. *)
Theorem create_body_id_replaces_new_id :
  newId [] = Ret 1
  /\ fst (createProduct app_dir join_segments "coffee"
            (<["createdAt" := VStr "1999"]> body_with_id) "t1" "t2" fresh_world)
     = Ret {| status := 201;
              body := VObj (obj [("id", VNum 42); ("name", VStr "Latte");
                                 ("createdAt", VStr "t1"); ("updatedAt", VStr "t2")]) |}.
Proof. split; evaluate. Qed.

(** C2 at a failing input.  Two creations from a body with [id: 42],
    starting from no file, leave a catalog of two records that both carry
    the identifier 42. *)
Theorem two_creations_share_an_id :
  holds_catalog twice_created coffee_path
    [created_record 1 body_with_id "t1" "t2"; created_record 43 body_with_id "t3" "t4"]
  /\ created_record 1 body_with_id "t1" "t2" !! "id" = Some (VNum 42)
  /\ created_record 43 body_with_id "t3" "t4" !! "id" = Some (VNum 42)
  /\ ~ NoDup (id_or_zero <$> [created_record 1 body_with_id "t1" "t2";
                              created_record 43 body_with_id "t3" "t4"]).
Proof.
  split; [left; evaluate|]. split; [evaluate|]. split; [evaluate|].
  intros H. vm_compute in H. apply NoDup_cons in H as [Hin _].
  apply Hin. left.
Qed.

(** *** Three creations (C3) *)

Lemma create_assigns_max_plus_one_on_coffee :
  (exists m, newId (VObj <$> [latte; mocha]) = Ret (m + 1)
             /\ m ∈ id_or_zero <$> [latte; mocha]
             /\ forall o, o ∈ [latte; mocha] -> id_or_zero o <= m)
  /\ (exists p1 p2 p3 w1 w2 w3,
        createProduct app_dir join_segments "tea" (obj [("name", VStr "Assam")])
          "t1" "t1" fresh_world
        = (Ret {| status := 201; body := VObj p1 |}, w1)
        /\ createProduct app_dir join_segments "tea" (obj [("name", VStr "Sencha")])
             "t2" "t2" w1
           = (Ret {| status := 201; body := VObj p2 |}, w2)
        /\ createProduct app_dir join_segments "tea" ∅ "t3" "t3" w2
           = (Ret {| status := 201; body := VObj p3 |}, w3)
        /\ p1 !! "id" = Some (VNum 1)
        /\ p2 !! "id" = Some (VNum 2)
        /\ p3 !! "id" = Some (VNum 3)
        /\ holds_catalog w3 (getProductsFilePath app_dir join_segments "tea") [p1; p2; p3]).
Proof.
  destruct (create_assigns_max_plus_one app_dir join_segments)
    as (_ & Hmax & _ & _ & Hthree).
  split.
  - destruct (Hmax [latte; mocha]) as (m & Hm & Hin & Hge & _);
      [| | |discriminate|by exists m].
    + apply List.Forall_cons; [right; exists 1; reflexivity|].
      apply List.Forall_cons; [right; exists 2; reflexivity|apply List.Forall_nil].
    + apply List.Forall_cons; [split; reflexivity|].
      apply List.Forall_cons; [split; reflexivity|apply List.Forall_nil].
    + discriminate.
  - apply Hthree; reflexivity.
Defined.

(** *** Update (C4, C5) *)

Lemma not_carried (o : gmap string value) (n m : Z) :
  o !! "id" = Some (VNum m) -> m <> n -> o !! "id" <> Some (VNum n).
Proof. intros -> Hne [= E]. contradiction. Qed.


Lemma update_missing_id_not_found_on_coffee :
  exists w',
    updateProduct app_dir join_segments "coffee" "7"
      (obj [("price", VNum 5)]) "2024-02-01T08:00:00.000Z" coffee_world
    = (Ret (error_response 404 "Product not found"), w')
    /\ disk w' = disk coffee_world
    /\ trace w' = [EvReadFile coffee_path].
Proof.
  destruct (update_missing_id_not_found app_dir join_segments coffee_world "coffee" "7"
              (obj [("price", VNum 5)]) "2024-02-01T08:00:00.000Z"
              [latte; mocha] coffee_world_catalog)
    as (w' & Hrun & Hdisk & Htrace & _).
  { intros o n Ho [= <-].
    apply elem_of_cons in Ho as [->|Ho]; [by apply (not_carried latte 7 1)|].
    apply list_elem_of_singleton in Ho as ->. by apply (not_carried mocha 7 2). }
  { intros n [= <-]. split; reflexivity. }
  exists w'. split; [exact Hrun|]. split; [exact Hdisk|exact Htrace].
Defined.

(** *** Delete (C6) *)

(** C6 on two catalogs.  In the catalog that two creations from a body
    with [id: 42] left with two records of that identifier, delete answers
    200, and
    the following get of the same identifier answers 200 with the second
    record, not 404: the saved catalog still holds a record with that
    identifier.  In the catalog of a record whose [image] is an upload URL
    and whose [audioFile] is the number 5, the image is removed, the call
    of [startsWith] on the number throws, and delete answers 500 with the
    record still in the catalog. *)
Lemma delete_leaves_the_other_record :
  let after_delete :=
    snd (deleteProduct app_dir join_segments "coffee" "42" twice_created) in
  let after_failure :=
    snd (deleteProduct app_dir join_segments "coffee" "1" espresso_world) in
  (fst (deleteProduct app_dir join_segments "coffee" "42" twice_created)
   = Ret {| status := 200;
            body := VObj (obj [("message", VStr "Product deleted successfully")]) |}
   /\ fst (getProduct app_dir join_segments "coffee" "42" after_delete)
      = Ret {| status := 200;
               body := VObj (created_record 43 body_with_id "t3" "t4") |}
   /\ holds_catalog after_delete coffee_path
        [created_record 43 body_with_id "t3" "t4"]
   /\ created_record 43 body_with_id "t3" "t4" !! "id" = Some (VNum 42))
  /\ (fst (deleteProduct app_dir join_segments "coffee" "1" espresso_world)
      = Ret (error_response 500 "Failed to delete product")
      /\ EvUnlink "/srv/tutustore/uploads/images/espresso.png" ∈ trace after_failure
      /\ disk after_failure !! "/srv/tutustore/uploads/images/espresso.png" = None
      /\ holds_catalog after_failure coffee_path [espresso]).
Proof.
  cbv zeta. split.
  - split; [evaluate|]. split; [evaluate|]. split; [left; evaluate|evaluate].
  - split; [evaluate|]. split; [|split; [evaluate|left; evaluate]].
    vm_compute. right. left.
Qed.

Lemma delete_removes_the_only_record_on_coffee :
  exists w',
    deleteProduct app_dir join_segments "coffee" "2" coffee_world
    = (Ret {| status := 200;
              body := VObj (obj [("message", VStr "Product deleted successfully")]) |},
       w')
    /\ disk w' !! coffee_path = Some (File (Json (VArr [VObj latte])))
    /\ fst (getProduct app_dir join_segments "coffee" "2" w')
       = Ret (error_response 404 "Product not found")
    /\ EvUnlink "/srv/tutustore/uploads/images/1700000000000-42.png" ∈ trace w'
    /\ exists e, EvConsoleError "Error deleting image file:" e ∈ trace w'.
Proof.
  destruct (delete_removes_the_only_record app_dir join_segments coffee_world
              "coffee" "2" [latte; mocha] 2 1 mocha coffee_world_catalog
              eq_refl eq_refl)
    as (w' & Hrun & Hdisk & _ & Hget & Himage & _).
  { intros [|[|j]] o Hl.
    - injection Hl as <-. split; [discriminate|lia].
    - injection Hl as <-. split; reflexivity.
    - destruct j; discriminate Hl. }
  { intros _. eexists. reflexivity. }
  { intros Ht. discriminate Ht. }
  destruct (Himage "/uploads/images/1700000000000-42.png") as [Hunlink Hlog].
  { split; [reflexivity|]. split; [discriminate|reflexivity]. }
  exists w'. split; [exact Hrun|]. split; [exact Hdisk|]. split; [exact Hget|].
  split; [exact Hunlink|]. apply Hlog. intros t Ht. discriminate Ht.
Defined.

(** *** Loading (C7) *)

Lemma load_absent_is_empty_other_failures_500_examples :
  fst (listProducts app_dir join_segments "coffee" fresh_world)
  = Ret {| status := 200; body := VArr [] |}
  /\ all_routes_answer_500 app_dir join_segments unreadable_world "coffee"
       (SystemError "EACCES")
  /\ all_routes_answer_500 app_dir join_segments garbled_world "coffee" SyntaxError.
Proof.
  split; [|split].
  - destruct (load_absent_is_empty_other_failures_500 app_dir join_segments
                fresh_world "coffee") as (_ & _ & Habsent & _).
    apply Habsent. reflexivity.
  - destruct (load_absent_is_empty_other_failures_500 app_dir join_segments
                unreadable_world "coffee") as (_ & _ & _ & Hfaulty & _).
    apply (Hfaulty "EACCES"); [reflexivity|discriminate].
  - destruct (load_absent_is_empty_other_failures_500 app_dir join_segments
                garbled_world "coffee") as (_ & _ & _ & _ & Hmalformed).
    apply (Hmalformed "[{"). reflexivity.
Defined.

(** *** Round trip (C9) *)


(** *** The [id] parameter (C10) *)

(** C10 on a string with a numeric prefix: ["1abc"] is read as 1, and get
    answers 200 with the record 1 (delete and update find it as well)
    where the specification has 404. *)
Lemma numeric_prefix_matches :
  parseInt "1abc" = Some 1
  /\ fst (getProduct app_dir join_segments "coffee" "1abc" coffee_world)
     = Ret {| status := 200; body := VObj latte |}
  /\ fst (deleteProduct app_dir join_segments "coffee" "1abc" coffee_world)
     = Ret {| status := 200;
              body := VObj (obj [("message", VStr "Product deleted successfully")]) |}.
Proof. split; [evaluate|]. split; evaluate. Qed.

Lemma id_parameter_is_read_by_parseInt_on_coffee :
  parseInt "abc" = None
  /\ fst (getProduct app_dir join_segments "coffee" "abc" coffee_world)
     = Ret (error_response 404 "Product not found")
  /\ fst (deleteProduct app_dir join_segments "coffee" "abc" coffee_world)
     = Ret (error_response 404 "Product not found")
  /\ fst (getProduct app_dir join_segments "coffee" "2 kg" coffee_world)
     = Ret {| status := 200; body := VObj mocha |}.
Proof.
  destruct (id_parameter_is_read_by_parseInt app_dir join_segments coffee_world
              "coffee" "abc" [latte; mocha] coffee_world_catalog)
    as (Hnan & Hfirst & _).
  destruct (id_parameter_is_read_by_parseInt app_dir join_segments coffee_world
              "coffee" "2 kg" [latte; mocha] coffee_world_catalog)
    as (_ & _ & Hfound).
  assert (Habc : parseInt "abc" = None).
  { apply (Hfirst "a"%char "bc"); try reflexivity; try discriminate.
    intros d Hd. vm_compute in Hd. injection Hd as <-. lia. }
  destruct (Hnan Habc) as (Hget & _ & Hdel).
  split; [exact Habc|]. split; [exact Hget|]. split; [exact Hdel|].
  apply (Hfound 2 1%nat mocha); [reflexivity|].
  split; [reflexivity|]. split; [reflexivity|].
  intros [|j] o Hj Hl; [|lia]. injection Hl as <-. discriminate.
Defined.

(** *** Uploads (C8) *)

(** C8 on a text file and on an image of 11 MiB sent to the image route:
    both are answered 500, where the specification has 400 and 413. *)
Lemma upload_rejections_answer_500 :
  reply_status (postUploadImage plain_extname false (Some text_as_image)
                  1700000000000 42) = 500
  /\ reply_status (postUploadImage plain_extname false (Some large_image)
                     1700000000000 42) = 500
  /\ reply_status (postUploadImage plain_extname true (Some large_image)
                     1700000000000 42) = 500.
Proof. split; [evaluate|]. split; evaluate. Qed.

Lemma upload_statuses_examples :
  postUploadImage plain_extname false None 1700000000000 42
  = JsonReply (error_response 400 "No image file provided")
  /\ postUploadImage plain_extname false (Some text_as_image) 1700000000000 42
     = ErrorPage 500
  /\ postUploadImage plain_extname false (Some large_image) 1700000000000 42
     = ErrorPage 500
  /\ postUploadImage plain_extname false (Some small_image) 1700000000000 42
     = JsonReply
         {| status := 200;
            body := VObj (obj [("url", VStr "/uploads/images/1700000000000-42.png");
                               ("filename", VStr "1700000000000-42.png")]) |}.
Proof.
  destruct (upload_statuses plain_extname false 1700000000000 42)
    as (Hnone & _ & _ & _ & Htype & _ & Hlarge & _ & Hok & _).
  split; [exact Hnone|]. split; [|split].
  - apply Htype; reflexivity.
  - apply Hlarge; reflexivity.
  - rewrite (Hok small_image); [evaluate|reflexivity|reflexivity|reflexivity].
Defined.

(** *** The invariant *)

Lemma ids_stay_distinct_from_no_file :
  exists objs',
    holds_catalog
      (serve app_dir join_segments "coffee"
         [Create (obj [("name", VStr "Latte")]) "t1" "t2";
          Create (obj [("name", VStr "Mocha")]) "t3" "t4";
          Update "1" (obj [("id", VNum 2); ("price", VNum 5)]) "t5";
          Delete "2";
          Create (obj [("name", VStr "Cortado")]) "t6" "t7"]
         fresh_world)
      coffee_path objs'
    /\ distinct_ids objs'.
Proof.
  destruct (ids_stay_distinct app_dir join_segments "coffee"
              [Create (obj [("name", VStr "Latte")]) "t1" "t2";
               Create (obj [("name", VStr "Mocha")]) "t3" "t4";
               Update "1" (obj [("id", VNum 2); ("price", VNum 5)]) "t5";
               Delete "2";
               Create (obj [("name", VStr "Cortado")]) "t6" "t7"]
              fresh_world []) as (objs' & Hcat & Hdist & _).
  - right. split; reflexivity.
  - apply empty_is_distinct.
  - repeat (apply List.Forall_cons; [first [reflexivity|exact I]|]).
    apply List.Forall_nil.
  - apply List.Forall_nil.
  - discriminate.
  - by exists objs'.
Defined.

(** *** Create with an [id] in the body, in general *)


(** *** Reading back an update *)

Lemma update_then_get_on_coffee :
  let r := {| status := 200;
              body := VObj (obj [("id", VNum 2); ("name", VStr "Mocha");
                                 ("price", VNum 5);
                                 ("image", VStr "/uploads/images/1700000000000-42.png");
                                 ("createdAt", VStr "2024-01-02T10:00:00.000Z");
                                 ("updatedAt", VStr "t5")]) |} in
  fst (getProduct app_dir join_segments "coffee" "2"
         (snd (updateProduct app_dir join_segments "coffee" "2"
                 (obj [("price", VNum 5)]) "t5" coffee_world)))
  = Ret r.
Proof.
  cbn zeta.
  apply (update_then_get app_dir join_segments "coffee" "2" (obj [("price", VNum 5)])
           "t5" coffee_world); [evaluate|reflexivity].
Defined.

(** *** Listing after a create *)

Lemma create_then_list_on_coffee :
  exists products,
    fst (listProducts app_dir join_segments "coffee" coffee_world)
    = Ret {| status := 200; body := VArr products |}
    /\ fst (listProducts app_dir join_segments "coffee"
              (snd (createProduct app_dir join_segments "coffee" cortado_body
                      "t1" "t2" coffee_world)))
       = Ret {| status := 200;
                body := VArr (products
                              ++ [VObj (obj [("id", VNum 3); ("name", VStr "Cortado");
                                             ("createdAt", VStr "t1");
                                             ("updatedAt", VStr "t2")])]) |}.
Proof.
  apply (create_then_list app_dir join_segments "coffee" cortado_body "t1" "t2"
           coffee_world
           {| status := 201;
              body := VObj (obj [("id", VNum 3); ("name", VStr "Cortado");
                                 ("createdAt", VStr "t1");
                                 ("updatedAt", VStr "t2")]) |});
    [evaluate|reflexivity].
Defined.

(** *** Two categories *)

Lemma other_category_unaffected_on_coffee :
  fst (listProducts app_dir join_segments "tea"
         (snd (createProduct app_dir join_segments "coffee" cortado_body "t1" "t2"
                 coffee_world)))
  = fst (listProducts app_dir join_segments "tea" coffee_world)
  /\ fst (getProduct app_dir join_segments "tea" "1"
            (snd (createProduct app_dir join_segments "coffee" cortado_body "t1" "t2"
                    coffee_world)))
     = fst (getProduct app_dir join_segments "tea" "1" coffee_world).
Proof.
  apply (other_category_unaffected app_dir join_segments "coffee" "tea" "1" "1"
           cortado_body "t1" "t2" coffee_world).
  - intros H. vm_compute in H. discriminate H.
  - left. reflexivity.
Defined.

(** *** A missing data directory *)

Lemma missing_data_directory_on_coffee :
  listProducts app_dir join_segments "coffee" no_directory_world
  = (Ret {| status := 200; body := VArr [] |},
     record_event (EvReadFile coffee_path) no_directory_world)
  /\ fst (createProduct app_dir join_segments "coffee" cortado_body "t1" "t2"
            no_directory_world)
     = Ret (error_response 500 "Failed to create product")
  /\ disk (snd (createProduct app_dir join_segments "coffee" cortado_body "t1" "t2"
                  no_directory_world))
     = disk no_directory_world.
Proof.
  apply (missing_data_directory app_dir join_segments "coffee" cortado_body "t1" "t2"
           no_directory_world).
  reflexivity.
Defined.

(** *** An identifier that is assigned twice *)

Lemma deleted_newest_id_is_reused_on_coffee :
  exists n first second w1 w2 w3,
    createProduct app_dir join_segments "coffee" latte_body "t1" "t2" coffee_world
    = (Ret {| status := 201; body := VObj first |}, w1)
    /\ first !! "id" = Some (VNum n)
    /\ deleteProduct app_dir join_segments "coffee" (pretty n) w1
       = (Ret {| status := 200;
                 body := VObj (obj [("message", VStr "Product deleted successfully")]) |},
          w2)
    /\ createProduct app_dir join_segments "coffee" cortado_body "t3" "t4" w2
       = (Ret {| status := 201; body := VObj second |}, w3)
    /\ second !! "id" = Some (VNum n)
    /\ holds_catalog w3 coffee_path ([latte; mocha] ++ [second])%list.
Proof.
  destruct (deleted_newest_id_is_reused app_dir join_segments "coffee" latte_body
              cortado_body "t1" "t2" "t3" "t4" coffee_world [latte; mocha])
    as (n & first & second & w1 & w2 & w3 & H1 & Hid & _ & H2 & H3 & Hid' & Hcat).
  - exact coffee_world_catalog.
  - apply List.Forall_cons; [right; exists 1; reflexivity|].
    apply List.Forall_cons; [right; exists 2; reflexivity|apply List.Forall_nil].
  - apply List.Forall_cons; [split; reflexivity|].
    apply List.Forall_cons; [split; reflexivity|apply List.Forall_nil].
  - discriminate.
  - reflexivity.
  - reflexivity.
  - intros H. vm_compute in H. discriminate H.
  - intros H. vm_compute in H. discriminate H.
  - by exists n, first, second, w1, w2, w3.
Defined.

(** *** Text after the digits of an [id] *)

Lemma id_is_read_up_to_its_digits_on_coffee :
  getProduct app_dir join_segments "coffee" "1abc" coffee_world
  = getProduct app_dir join_segments "coffee" "1" coffee_world
  /\ updateProduct app_dir join_segments "coffee" "1abc" cortado_body "t1" coffee_world
     = updateProduct app_dir join_segments "coffee" "1" cortado_body "t1" coffee_world
  /\ deleteProduct app_dir join_segments "coffee" "1abc" coffee_world
     = deleteProduct app_dir join_segments "coffee" "1" coffee_world.
Proof.
  apply (id_is_read_up_to_its_digits app_dir join_segments "coffee" 1 "a" "bc"
           cortado_body "t1" coffee_world).
  - intros d Hd. vm_compute in Hd. injection Hd as <-. lia.
  - intros H. discriminate H.
Defined.

(** *** A catalog file that holds an object *)


(** *** Stored names *)

Lemma plain_extname_dot (name : string) :
  plain_extname name = "" \/ exists r, plain_extname name = String "." r.
Proof.
  unfold plain_extname.
  assert (H : forall e, last_dot_suffix name = Some e -> exists r, e = String "." r).
  { induction name as [|c rest IH]; [discriminate|]. cbn [last_dot_suffix].
    destruct (last_dot_suffix rest) as [e'|]; [intros e [= <-]; by apply IH|].
    destruct (Ascii.eqb_spec c ".") as [->|_]; [|discriminate].
    intros e [= <-]. by exists rest. }
  destruct (last_dot_suffix name) as [e|]; [right; by apply H|by left].
Qed.

Lemma storage_filename_determines_examples :
  1700000000000 = 1700000000000 /\ 42 = 42
  /\ plain_extname (originalname small_image) = plain_extname (originalname large_image).
Proof.
  apply (storage_filename_determines plain_extname 1700000000000 42 1700000000000 42
           small_image large_image).
  - exact plain_extname_dot.
  - vm_compute. reflexivity.
Defined.

(** *** The scenario of the specification *)

(** The scenario of the specification.  [POST /api/products/coffee {"name":"Latte","price":4.5}] into a
    category with no file answers 201 with [id: 1], the two fields and the
    two timestamps; [GET /api/products/coffee/1] then answers 200 with the
    same body; [PUT /api/products/coffee/1 {"price":5}] answers 200 with the
    new price, the old name and a new [updatedAt]; [DELETE] answers 200
    with the message; and the [GET] after it answers 404. *)
Theorem latte_scenario :
  fst (createProduct app_dir join_segments "coffee" latte_body
         "2024-03-01T09:00:00.000Z" "2024-03-01T09:00:00.001Z" fresh_world)
  = Ret {| status := 201;
           body := VObj (obj [("id", VNum 1); ("name", VStr "Latte");
                              ("price", VFrac "4.5");
                              ("createdAt", VStr "2024-03-01T09:00:00.000Z");
                              ("updatedAt", VStr "2024-03-01T09:00:00.001Z")]) |}
  /\ fst (getProduct app_dir join_segments "coffee" "1" latte_created)
     = Ret {| status := 200;
              body := VObj (obj [("id", VNum 1); ("name", VStr "Latte");
                                 ("price", VFrac "4.5");
                                 ("createdAt", VStr "2024-03-01T09:00:00.000Z");
                                 ("updatedAt", VStr "2024-03-01T09:00:00.001Z")]) |}
  /\ fst (updateProduct app_dir join_segments "coffee" "1" (obj [("price", VNum 5)])
            "2024-03-02T09:00:00.000Z" latte_created)
     = Ret {| status := 200;
              body := VObj (obj [("id", VNum 1); ("name", VStr "Latte");
                                 ("price", VNum 5);
                                 ("createdAt", VStr "2024-03-01T09:00:00.000Z");
                                 ("updatedAt", VStr "2024-03-02T09:00:00.000Z")]) |}
  /\ fst (deleteProduct app_dir join_segments "coffee" "1" latte_updated)
     = Ret {| status := 200;
              body := VObj (obj [("message", VStr "Product deleted successfully")]) |}
  /\ fst (getProduct app_dir join_segments "coffee" "1" latte_deleted)
     = Ret (error_response 404 "Product not found").
Proof. repeat split; evaluate. Qed.
